(** * The EMANE manager of CORE: a shallow embedding of
      [daemon/core/emane/emanemanager.py] and the properties of its
      NEM bookkeeping, configuration lookup, shutdown and location handling.

    Python objects that are shared and mutated (interfaces, nodes, networks)
    live in stores indexed by object identity; every reference denotes an
    object, as in Python, so the stores are total functions.  Methods of
    [EmaneManager] are computations in a state-and-exception monad over the
    [World].  The node lock is not modelled: the embedding is sequential. *)

From Stdlib Require Import ZArith QArith Qround Ascii.
From stdpp Require Import gmap strings list fin_maps functions pretty sorting.

Local Open Scope Z_scope.

(** ** Object identities *)

Definition iface_ref := positive.
Definition node_ref := positive.
Definition net_ref := positive.

Abbreviation Config := (gmap string string).

(** ** Exceptions and results *)

Inductive exn :=
  | CoreError (msg : string)
  | AttributeError
  | TypeError
  | ValueError.

Inductive Res (A : Type) :=
  | Ok (a : A)
  | Raise (e : exn).
Arguments Ok {A} a.
Arguments Raise {A} e.

(** ** The classes the manager works on *)

(** [EmaneModel]: the class attribute [name] and [default_values()]. *)
Record EmaneModel := {
  model_name : string;
  default_values : Config
}.

(** Modelled from the spec: [Position] of [core.nodes.base], which the
    manager only reads and writes: the cartesian part, and the geo part that
    is absent until [set_geo] is called. *)
Record Position := {
  pos_x : Q; pos_y : Q; pos_z : Q;
  pos_lon : option Q; pos_lat : option Q; pos_alt : option Q
}.

(** Modelled from the spec: [Position.set] writes [(x, y, z)]. *)
Definition Position_set (p : Position) (x y z : Q) : Position :=
  {| pos_x := x; pos_y := y; pos_z := z;
     pos_lon := pos_lon p; pos_lat := pos_lat p; pos_alt := pos_alt p |}.

(** Modelled from the spec: [Position.set_geo] writes [(lon, lat, alt)]. *)
Definition Position_set_geo (p : Position) (lon lat alt : Q) : Position :=
  {| pos_x := pos_x p; pos_y := pos_y p; pos_z := pos_z p;
     pos_lon := Some lon; pos_lat := Some lat; pos_alt := Some alt |}.

(** What [iface.poshook] can hold here: the manager's bound method
    [set_nem_position], or some callable installed by other code. *)
Inductive PosHook :=
  | hook_set_nem_position
  | hook_foreign (tag : positive).

Record CoreInterface := {
  iface_id : Z;
  iface_name : string;
  iface_node : option node_ref;
  iface_net : option net_ref;
  is_TunTap : bool;
  poshook : option PosHook
}.

Record NodeBase := {
  node_id : Z;
  node_name : string;
  node_up : bool;
  is_CoreNode : bool;
  position : Position
}.

Record EmaneNet := {
  net_id : Z;
  net_name : string;
  wireless_model : option EmaneModel;
  net_get_ifaces : list iface_ref
}.

(** Session options read by the manager.  [nem_id_start] and [link_enabled]
    are read without a default; the two ports have one in [__init__]. *)
Record SessionOptions := {
  nem_id_start : Z;
  link_enabled : Z;
  emane_platform_port : option Z;
  emane_transform_port : option Z
}.

Definition get_int (o : option Z) (default : Z) : Z :=
  match o with Some v => v | None => default end.

Record Session := {
  options : SessionOptions;
  session_nodes : gmap Z node_ref;
  (** lines of [<session-dir>/emane_nems] *)
  emane_nems : list string;
  (** whether opening that file for append raises [OSError] *)
  emane_nems_oserror : bool
}.

Record EmaneManager := {
  nems_to_ifaces : gmap Z iface_ref;
  ifaces_to_nems : gmap iface_ref Z;
  (** a [dict]: insertion order matters for [values()] *)
  _emane_nets : list (Z * net_ref);
  platformport : Z;
  transformport : Z;
  node_configs : gmap Z (gmap string Config);
  node_models : gmap Z string
}.

(** ** Effects on collaborators outside the manager *)

Inductive MessageFlags := flag_NONE | flag_ADD | flag_DELETE.
Inductive LinkTypes := WIRELESS | WIRED.

Record LinkData := {
  message_type : MessageFlags;
  link_type : LinkTypes;
  node1_id : Z;
  node2_id : Z;
  network_id : Z;
  color : string
}.

Inductive Event :=
  | LinkMonitorStop
  | IfaceShutdown (i : iface_ref)
  | NodeCmd (n : node_ref) (cmd : string)
  | HostCmd (n : node_ref) (cmd : string)
  | EventManagerShutdown
  | EventManagerReset
  | PublishLocation (nem : Z) (lon lat : Q) (alt : Z)
  | PublishLocations (positions : list (Z * Q * Q * Z))
  | BroadcastNode (n : node_ref).

(** ** The world *)

Record World := {
  manager : EmaneManager;
  session : Session;
  ifaces : iface_ref -> CoreInterface;
  nodes : node_ref -> NodeBase;
  nets : net_ref -> EmaneNet;
  (** [EmaneModelManager.models], read-only after start *)
  model_registry : gmap string EmaneModel;
  log : list Event
}.

Definition with_manager (w : World) (m : EmaneManager) : World :=
  {| manager := m; session := session w; ifaces := ifaces w; nodes := nodes w;
     nets := nets w; model_registry := model_registry w; log := log w |}.

Definition with_session (w : World) (s : Session) : World :=
  {| manager := manager w; session := s; ifaces := ifaces w; nodes := nodes w;
     nets := nets w; model_registry := model_registry w; log := log w |}.

Definition with_ifaces (w : World) (f : iface_ref -> CoreInterface) : World :=
  {| manager := manager w; session := session w; ifaces := f; nodes := nodes w;
     nets := nets w; model_registry := model_registry w; log := log w |}.

Definition with_nodes (w : World) (f : node_ref -> NodeBase) : World :=
  {| manager := manager w; session := session w; ifaces := ifaces w; nodes := f;
     nets := nets w; model_registry := model_registry w; log := log w |}.

Definition emit (w : World) (es : list Event) : World :=
  {| manager := manager w; session := session w; ifaces := ifaces w;
     nodes := nodes w; nets := nets w; model_registry := model_registry w;
     log := log w ++ es |}.

(** ** The monad *)

Definition M (A : Type) : Type := World -> Res A * World.

Definition ret {A} (a : A) : M A := fun w => (Ok a, w).
Definition raise {A} (e : exn) : M A := fun w => (Raise e, w).
Definition bind {A B} (c : M A) (k : A -> M B) : M B :=
  fun w => match c w with
           | (Ok a, w') => k a w'
           | (Raise e, w') => (Raise e, w')
           end.
Definition get_world : M World := fun w => (Ok w, w).
Definition modify (f : World -> World) : M unit := fun w => (Ok tt, f w).

Notation "x <~ c ;; k" := (bind c (fun x => k))
  (at level 100, c at level 99, right associativity).
Notation "c ;;; k" := (bind c (fun _ => k))
  (at level 100, right associativity).

(** [obj.attr] where [obj] may be [None]. *)
Definition attr_of {A} (o : option A) : M A :=
  match o with Some a => ret a | None => raise AttributeError end.

(** Python truthiness of an optional dict: [None] and [{}] are falsy. *)
Definition truthy (c : option Config) : bool :=
  match c with Some d => bool_decide (d ≠ ∅) | None => false end.

(** ** Python helpers *)

(** [if not config: config = d]. *)
Definition or_default (c : option Config) (d : Config) : Config :=
  match c with
  | Some c' => if bool_decide (c' ≠ ∅) then c' else d
  | None => d
  end.

Definition dquote : string := String (Ascii.ascii_of_N 34) EmptyString.
Definition newline : string := String (Ascii.ascii_of_N 10) EmptyString.

Fixpoint zeros (n : nat) : string :=
  match n with O => EmptyString | S n' => String "0"%char (zeros n') end.

(** [f"{n:03}"]: zero fill to width 3, the sign counted in the width. *)
Definition format_03 (n : Z) : string :=
  let digits := pretty (Z.abs n) in
  if n <? 0 then "-" +:+ zeros (2 - String.length digits) +:+ digits
  else zeros (3 - String.length digits) +:+ digits.

Definition digit_of (c : Ascii.ascii) : option Z :=
  let v := Z.of_N (Ascii.N_of_ascii c) - 48 in
  if (0 <=? v) && (v <=? 9) then Some v else None.

Fixpoint parse_digits (s : string) (acc : Z) : option Z :=
  match s with
  | EmptyString => Some acc
  | String c s' =>
      match digit_of c with
      | Some d => parse_digits s' (10 * acc + d)
      | None => None
      end
  end.

(** [int(s)] on the strings built here: decimal digits only; anything else
    (an embedded sign, the empty string) is a [ValueError]. *)
Definition py_int (s : string) : option Z :=
  match s with
  | EmptyString => None
  | _ => parse_digits s 0
  end.

(** [int(x)] of a finite float: truncation towards zero. *)
Definition py_trunc (q : Q) : Z := Z.quot (Qnum q) (Z.pos (Qden q)).

(** [round(x)] of a finite float: nearest integer, ties to even. *)
Definition py_round (q : Q) : Z :=
  let d := Z.pos (Qden q) in
  let f := Qnum q / d in
  let r2 := 2 * (Qnum q mod d) in
  if r2 <? d then f
  else if d <? r2 then f + 1
  else if Z.even f then f else f + 1.

(** [int.bit_length()]: bits of the absolute value. *)
Definition bit_length (x : Z) : Z :=
  if x =? 0 then 0 else Z.log2 (Z.abs x) + 1.

(** *** Ordered dictionaries *)

Definition dict_contains {V} (k : Z) (d : list (Z * V)) : bool :=
  bool_decide (k ∈ d.*1).

Fixpoint dict_replace {V} (k : Z) (v : V) (d : list (Z * V)) : list (Z * V) :=
  match d with
  | [] => []
  | (k', v') :: d' =>
      if bool_decide (k' = k) then (k, v) :: d' else (k', v') :: dict_replace k v d'
  end.

(** [d[k] = v]: in place when the key exists, else appended. *)
Definition dict_set {V} (k : Z) (v : V) (d : list (Z * V)) : list (Z * V) :=
  if dict_contains k d then dict_replace k v d else d ++ [(k, v)].

Definition dict_values {V} (d : list (Z * V)) : list V := d.*2.

(** *** [sorted] with a key of two integers *)

Definition key_le (a b : Z * Z) : bool :=
  (fst a <? fst b) || ((fst a =? fst b) && (snd a <=? snd b)).

Fixpoint sorted_insert {A} (x : (Z * Z) * A) (l : list ((Z * Z) * A))
    : list ((Z * Z) * A) :=
  match l with
  | [] => [x]
  | y :: l' => if key_le (fst x) (fst y) then x :: y :: l'
               else y :: sorted_insert x l'
  end.

Fixpoint sort_keyed {A} (l : list ((Z * Z) * A)) : list ((Z * Z) * A) :=
  match l with
  | [] => []
  | x :: l' => sorted_insert x (sort_keyed l')
  end.

(** [sorted(l, key=...)] on the list decorated with its keys: stable. *)
Definition py_sorted {A} (keyed : list ((Z * Z) * A)) : list A :=
  (sort_keyed keyed).*2.

(** *** The [while] loop of [next_nem_id]

    [while nem_id in nems: nem_id += 1], with the number of iterations
    bounded by the size of the dictionary ([next_free_spec] below shows the
    bound is never the reason the loop stops). *)
Fixpoint next_free (fuel : nat) (nems : gmap Z iface_ref) (nem_id : Z) : Z :=
  match fuel with
  | O => nem_id
  | S fuel' =>
      if bool_decide (is_Some (nems !! nem_id))
      then next_free fuel' nems (nem_id + 1)
      else nem_id
  end.

(** *** Attribute updates *)

Definition set_nem_maps (m : EmaneManager)
    (n2i : gmap Z iface_ref) (i2n : gmap iface_ref Z) : EmaneManager :=
  {| nems_to_ifaces := n2i; ifaces_to_nems := i2n;
     _emane_nets := _emane_nets m;
     platformport := platformport m; transformport := transformport m;
     node_configs := node_configs m; node_models := node_models m |}.

Definition set_emane_nets (m : EmaneManager) (d : list (Z * net_ref))
    : EmaneManager :=
  {| nems_to_ifaces := nems_to_ifaces m; ifaces_to_nems := ifaces_to_nems m;
     _emane_nets := d;
     platformport := platformport m; transformport := transformport m;
     node_configs := node_configs m; node_models := node_models m |}.

Definition set_node_configs (m : EmaneManager)
    (configs : gmap Z (gmap string Config)) (models : gmap Z string)
    : EmaneManager :=
  {| nems_to_ifaces := nems_to_ifaces m; ifaces_to_nems := ifaces_to_nems m;
     _emane_nets := _emane_nets m;
     platformport := platformport m; transformport := transformport m;
     node_configs := configs; node_models := models |}.

Definition Session_append_nem (s : Session) (line : string) : Session :=
  {| options := options s; session_nodes := session_nodes s;
     emane_nems := emane_nems s ++ [line];
     emane_nems_oserror := emane_nems_oserror s |}.

Definition Node_set_position (n : NodeBase) (p : Position) : NodeBase :=
  {| node_id := node_id n; node_name := node_name n; node_up := node_up n;
     is_CoreNode := is_CoreNode n; position := p |}.

Definition Iface_set_poshook (i : CoreInterface) (h : option PosHook)
    : CoreInterface :=
  {| iface_id := iface_id i; iface_name := iface_name i;
     iface_node := iface_node i; iface_net := iface_net i;
     is_TunTap := is_TunTap i; poshook := h |}.

(** [EmaneManager.__init__] *)
Definition EmaneManager_init (s : Session) : EmaneManager :=
  {| nems_to_ifaces := ∅; ifaces_to_nems := ∅; _emane_nets := [];
     platformport := get_int (emane_platform_port (options s)) 8100;
     transformport := get_int (emane_transform_port (options s)) 8200;
     node_configs := ∅; node_models := ∅ |}.

(** *** Loops in the monad *)

Fixpoint mapM {A B} (f : A -> M B) (l : list A) : M (list B) :=
  match l with
  | [] => ret []
  | x :: l' => y <~ f x ;; ys <~ mapM f l' ;; ret (y :: ys)
  end.

Fixpoint forM_ {A} (f : A -> M unit) (l : list A) : M unit :=
  match l with
  | [] => ret tt
  | x :: l' => f x ;;; forM_ f l'
  end.

Section Manager.

(** Functions of the repository that live outside the manager's file. *)
Variable iface_config_id : Z -> Z -> Z.           (* core.utils *)
Variable getxyz : Q -> Q -> Q -> Q * Q * Q.       (* session.location *)
Variable getgeo : Q -> Q -> Q -> Q * Q * Q.       (* session.location *)
Variable get_link_color : Z -> string.            (* session *)

(** ** Configuration *)

(** Modelled from the spec: [EmaneModelManager.get] fails (a [CoreError])
    when the name is absent from the registry. *)
Definition get_model (name : string) : M EmaneModel := fun w =>
  match model_registry w !! name with
  | Some cls => (Ok cls, w)
  | None => (Raise (CoreError ("emane model(" +:+ name +:+ ") does not exist")), w)
  end.

Definition get_config (key : Z) (model : string) (default : bool)
    : M (option Config) :=
  model_class <~ get_model model ;;
  w <~ get_world ;;
  let model_configs := node_configs (manager w) !! key in
  let config :=
    match model_configs with
    | Some mc => if bool_decide (mc ≠ ∅) then mc !! model else None
    | None => None
    end in
  match config with
  | None => if default then ret (Some (default_values model_class)) else ret None
  | Some c => ret (Some c)
  end.

Definition set_config (key : Z) (model : string) (config : option Config)
    : M unit :=
  get_model model ;;;
  model_config <~ get_config key model true ;;
  model_config <~ attr_of model_config ;;
  let config := if truthy config then default ∅ config else ∅ in
  (* [dict.update]: the entries of [config] win *)
  let model_config := config ∪ model_config in
  modify (fun w =>
    let model_configs := default ∅ (node_configs (manager w) !! key) in
    with_manager w
      (set_node_configs (manager w)
         (<[key := <[model := model_config]> model_configs]>
            (node_configs (manager w)))
         (node_models (manager w)))).

Definition config_reset (node_id : option Z) : M unit :=
  modify (fun w =>
    match node_id with
    | None => with_manager w (set_node_configs (manager w) ∅ ∅)
    | Some node_id =>
        with_manager w
          (set_node_configs (manager w)
             (match node_configs (manager w) !! node_id with
              | Some _ => <[node_id := ∅]> (node_configs (manager w))
              | None => node_configs (manager w)
              end)
             (delete node_id (node_models (manager w))))
    end).

Definition get_iface_config (emane_net : net_ref) (iface : iface_ref)
    : M Config :=
  w <~ get_world ;;
  wm <~ attr_of (wireless_model (nets w emane_net)) ;;
  let model_name := model_name wm in
  node <~ attr_of (iface_node (ifaces w iface)) ;;
  let key := iface_config_id (node_id (nodes w node)) (iface_id (ifaces w iface)) in
  config <~ get_config key model_name false ;;
  config <~ (if truthy config then ret config
             else get_config (node_id (nodes w node)) model_name false) ;;
  config <~ (if truthy config then ret config
             else get_config (net_id (nets w emane_net)) model_name false) ;;
  ret (or_default config (default_values wm)).

(** ** NEM identities *)

Definition get_iface (nem_id : Z) : M (option iface_ref) := fun w =>
  (Ok (nems_to_ifaces (manager w) !! nem_id), w).

Definition get_nem_id (iface : iface_ref) : M (option Z) := fun w =>
  (Ok (ifaces_to_nems (manager w) !! iface), w).

Definition get_nem_port (iface : iface_ref) : M Z :=
  nem_id <~ get_nem_id iface ;;
  match nem_id with
  | None => raise TypeError
  | Some n =>
      match py_int ("47" +:+ format_03 n) with
      | Some port => ret port
      | None => raise ValueError
      end
  end.

Definition write_nem (iface : iface_ref) (nem_id : Z) : M unit :=
  w <~ get_world ;;
  if emane_nems_oserror (session w) then ret tt
  else
    node <~ attr_of (iface_node (ifaces w iface)) ;;
    let line := node_name (nodes w node) +:+ " " +:+ iface_name (ifaces w iface)
                +:+ " " +:+ pretty nem_id +:+ newline in
    modify (fun w => with_session w (Session_append_nem (session w) line)).

Definition next_nem_id (iface : iface_ref) : M Z :=
  w <~ get_world ;;
  let m := manager w in
  let nem_id := next_free (size (nems_to_ifaces m)) (nems_to_ifaces m)
                  (nem_id_start (options (session w))) in
  modify (fun w => with_manager w
            (set_nem_maps (manager w)
               (<[nem_id := iface]> (nems_to_ifaces (manager w)))
               (<[iface := nem_id]> (ifaces_to_nems (manager w))))) ;;;
  write_nem iface nem_id ;;;
  ret nem_id.

(** ** Networks *)

Definition add_node (emane_net : net_ref) : M unit :=
  w <~ get_world ;;
  let net := nets w emane_net in
  if dict_contains (net_id net) (_emane_nets (manager w)) then
    raise (CoreError ("duplicate emane network(" +:+ pretty (net_id net)
                      +:+ "): " +:+ net_name net))
  else
    modify (fun w => with_manager w
              (set_emane_nets (manager w)
                 (dict_set (net_id net) emane_net (_emane_nets (manager w))))).

(** The two nested loops of [get_ifaces], before sorting. *)
Definition collect_ifaces (w : World) : list (net_ref * iface_ref) :=
  flat_map
    (fun emane_net =>
       match wireless_model (nets w emane_net) with
       | None => []
       | Some _ =>
           flat_map
             (fun iface =>
                match iface_node (ifaces w iface) with
                | None => []
                | Some _ =>
                    if is_TunTap (ifaces w iface) then [(emane_net, iface)] else []
                end)
             (net_get_ifaces (nets w emane_net))
       end)
    (dict_values (_emane_nets (manager w))).

(** [lambda x: (x[1].node.id, x[1].id)] *)
Definition iface_sort_key (x : net_ref * iface_ref) : M (Z * Z) :=
  w <~ get_world ;;
  node <~ attr_of (iface_node (ifaces w (snd x))) ;;
  ret (node_id (nodes w node), iface_id (ifaces w (snd x))).

Definition get_ifaces : M (list (net_ref * iface_ref)) :=
  w <~ get_world ;;
  keyed <~ mapM (fun x => k <~ iface_sort_key x ;; ret (k, x)) (collect_ifaces w) ;;
  ret (py_sorted keyed).

(** ** Positions *)

Definition get_nem_position (iface : iface_ref) : M (option (Z * Q * Q * Z)) :=
  nem_id <~ get_nem_id iface ;;
  match nem_id with
  | None => ret None
  | Some nem_id =>
      w <~ get_world ;;
      node <~ attr_of (iface_node (ifaces w iface)) ;;
      let p := position (nodes w node) in
      let '(lat, lon, alt) := getgeo (pos_x p) (pos_y p) (pos_z p) in
      let alt := match pos_alt p with Some a => a | None => alt end in
      modify (fun w => with_nodes w
                (<[node := Node_set_position (nodes w node)
                             (Position_set_geo p lon lat alt)]> (nodes w))) ;;;
      ret (Some (nem_id, lon, lat, py_round alt))
  end.

Definition set_nem_position (iface : iface_ref) : M unit :=
  position <~ get_nem_position iface ;;
  match position with
  | Some (nem_id, lon, lat, alt) =>
      modify (fun w => emit w [PublishLocation nem_id lon lat alt])
  | None => ret tt
  end.

(** The loop body of [set_nem_positions], threading [positions]. *)
Fixpoint gather_positions (moved_ifaces : list iface_ref)
    (positions : list (Z * Q * Q * Z)) : M (list (Z * Q * Q * Z)) :=
  match moved_ifaces with
  | [] => ret positions
  | iface :: rest =>
      position <~ get_nem_position iface ;;
      match position with
      | None => gather_positions rest positions
      | Some entry => gather_positions rest (positions ++ [entry])
      end
  end.

Definition set_nem_positions (moved_ifaces : list iface_ref) : M unit :=
  match moved_ifaces with
  | [] => ret tt
  | _ =>
      positions <~ gather_positions moved_ifaces [] ;;
      modify (fun w => emit w [PublishLocations positions])
  end.

(** ** Lifecycle *)

Definition links_enabled : M bool := fun w =>
  (Ok (bool_decide (link_enabled (options (session w)) = 1)), w).

Definition reset : M unit :=
  modify (fun w => with_manager w (set_emane_nets (manager w) [])) ;;;
  modify (fun w => with_manager w
            (set_nem_maps (manager w) ∅ (ifaces_to_nems (manager w)))) ;;;
  modify (fun w => with_manager w
            (set_nem_maps (manager w) (nems_to_ifaces (manager w)) ∅)) ;;;
  modify (fun w => with_manager w
            (set_nem_maps (manager w) ∅ (ifaces_to_nems (manager w)))) ;;;
  modify (fun w => emit w [EventManagerReset]).

Definition kill_cmd (iface_name : string) : string :=
  "pkill -f " +:+ dquote +:+ "emane.+" +:+ iface_name +:+ dquote.

(** One iteration of the loop over [get_ifaces()] in [shutdown]. *)
Definition shutdown_iface (iface : iface_ref) : M unit :=
  w <~ get_world ;;
  node <~ attr_of (iface_node (ifaces w iface)) ;;
  if negb (node_up (nodes w node)) then ret tt
  else
    let cmd := kill_cmd (iface_name (ifaces w iface)) in
    (if is_CoreNode (nodes w node) then
       modify (fun w => emit w [IfaceShutdown iface]) ;;;
       modify (fun w => emit w [NodeCmd node cmd])
     else
       modify (fun w => emit w [HostCmd node cmd])) ;;;
    modify (fun w => with_ifaces w
              (<[iface := Iface_set_poshook (ifaces w iface) None]> (ifaces w))).

Definition shutdown : M unit :=
  w <~ get_world ;;
  match _emane_nets (manager w) with
  | [] => ret tt
  | _ =>
      le <~ links_enabled ;;
      (if le then modify (fun w => emit w [LinkMonitorStop]) else ret tt) ;;;
      pairs <~ get_ifaces ;;
      forM_ (fun x => shutdown_iface (snd x)) pairs ;;;
      modify (fun w => emit w [EventManagerShutdown])
  end.

(** ** Links *)

Definition get_nem_link (nem1 nem2 : Z) (flags : MessageFlags)
    : M (option LinkData) :=
  iface1 <~ get_iface nem1 ;;
  match iface1 with
  | None => ret None
  | Some iface1 =>
      w <~ get_world ;;
      let node1 := iface_node (ifaces w iface1) in
      iface2 <~ get_iface nem2 ;;
      match iface2 with
      | None => ret None
      | Some iface2 =>
          let node2 := iface_node (ifaces w iface2) in
          if bool_decide (iface_net (ifaces w iface1) ≠ iface_net (ifaces w iface2))
          then ret None
          else
            emane_net <~ attr_of (iface_net (ifaces w iface1)) ;;
            let color := get_link_color (net_id (nets w emane_net)) in
            node1 <~ attr_of node1 ;;
            node2 <~ attr_of node2 ;;
            ret (Some {| message_type := flags;
                         link_type := WIRELESS;
                         node1_id := node_id (nodes w node1);
                         node2_id := node_id (nodes w node2);
                         network_id := net_id (nets w emane_net);
                         color := color |})
      end
  end.

(** ** Inbound location events *)

Definition handlelocationeventtoxyz (nemid : Z) (lat lon alt : Q) : M bool :=
  iface <~ get_iface nemid ;;
  match iface with
  | None => ret false
  | Some iface =>
      w <~ get_world ;;
      node0 <~ attr_of (iface_node (ifaces w iface)) ;;
      let n := node_id (nodes w node0) in
      let '(x, y, z) := getxyz lat lon alt in
      let x := py_trunc x in
      let y := py_trunc y in
      let z := py_trunc z in
      let xbit_check := (16 <? bit_length x) || (x <? 0) in
      let ybit_check := (16 <? bit_length y) || (y <? 0) in
      let zbit_check := (16 <? bit_length z) || (z <? 0) in
      if xbit_check || ybit_check || zbit_check then ret false
      else
        match session_nodes (session w) !! n with
        | None => ret false
        | Some node =>
            modify (fun w => with_nodes w
                      (<[node := Node_set_position (nodes w node)
                                   (Position_set (position (nodes w node))
                                      (inject_Z x) (inject_Z y) (inject_Z z))]>
                         (nodes w))) ;;;
            modify (fun w => with_nodes w
                      (<[node := Node_set_position (nodes w node)
                                   (Position_set_geo (position (nodes w node))
                                      lon lat alt)]>
                         (nodes w))) ;;;
            modify (fun w => emit w [BroadcastNode node]) ;;;
            ret true
        end
  end.

(** [handlelocationevent]: events lacking one of the three attributes are
    dropped; the other attributes are ignored. *)
Fixpoint handlelocationevent (events : list (Z * gmap string Q)) : M unit :=
  match events with
  | [] => ret tt
  | (txnemid, attrs) :: rest =>
      match attrs !! "latitude", attrs !! "longitude", attrs !! "altitude" with
      | Some lat, Some lon, Some alt =>
          handlelocationeventtoxyz txnemid lat lon alt ;;;
          handlelocationevent rest
      | _, _, _ => handlelocationevent rest
      end
  end.

End Manager.

(** ** The effective configuration, in the words of the specification *)

(** What is stored for [model] under [key]. *)
Definition stored_lookup (m : EmaneManager) (key : Z) (model : string)
    : option Config :=
  node_configs m !! key ≫= (fun model_configs => model_configs !! model).

(** The first non-empty lookup of a list, the defaults when there is none. *)
Fixpoint first_nonempty (lookups : list (option Config)) (defaults : Config)
    : Config :=
  match lookups with
  | [] => defaults
  | Some c :: rest =>
      if bool_decide (c ≠ ∅) then c else first_nonempty rest defaults
  | None :: rest => first_nonempty rest defaults
  end.

(** ** The invariant of the two NEM dictionaries *)


(** ** A small session used in the examples

    One EMANE network (id 1, model rfpipe) with the interfaces (node 2,
    interface 0) and (node 3, interface 0), a wired interface on node 2 and
    an interface without a node; a second network (id 5) without a model. *)

Definition rfpipe : EmaneModel :=
  {| model_name := "rfpipe";
     default_values := <["external" := "0"]> {["otamanagerdevice" := "ctrl0net"]} |}.

Definition demo_position : Position :=
  {| pos_x := 100; pos_y := 50; pos_z := 0;
     pos_lon := None; pos_lat := None; pos_alt := None |}.

Definition demo_ifaces (r : iface_ref) : CoreInterface :=
  match r with
  | 1%positive =>
      {| iface_id := 0; iface_name := "n2eth0"; iface_node := Some 1%positive;
         iface_net := Some 1%positive; is_TunTap := true; poshook := None |}
  | 2%positive =>
      {| iface_id := 0; iface_name := "n3eth0"; iface_node := Some 2%positive;
         iface_net := Some 1%positive; is_TunTap := true; poshook := None |}
  | 3%positive =>
      {| iface_id := 1; iface_name := "n2eth1"; iface_node := Some 1%positive;
         iface_net := Some 1%positive; is_TunTap := false; poshook := None |}
  | _ =>
      {| iface_id := 0; iface_name := "loose"; iface_node := None;
         iface_net := None; is_TunTap := true; poshook := None |}
  end.

Definition demo_nodes (r : node_ref) : NodeBase :=
  match r with
  | 1%positive =>
      {| node_id := 2; node_name := "n2"; node_up := true;
         is_CoreNode := true; position := demo_position |}
  | _ =>
      {| node_id := 3; node_name := "n3"; node_up := true;
         is_CoreNode := false; position := demo_position |}
  end.

Definition demo_nets (r : net_ref) : EmaneNet :=
  match r with
  | 1%positive =>
      {| net_id := 1; net_name := "emane1"; wireless_model := Some rfpipe;
         net_get_ifaces := [2; 3; 4; 1]%positive |}
  | _ =>
      {| net_id := 5; net_name := "emane5"; wireless_model := None;
         net_get_ifaces := [] |}
  end.

Definition demo_options (start : Z) : SessionOptions :=
  {| nem_id_start := start; link_enabled := 0;
     emane_platform_port := None; emane_transform_port := None |}.

Definition demo_session (start : Z) : Session :=
  {| options := demo_options start;
     session_nodes := <[2 := 1%positive]> {[3 := 2%positive]};
     emane_nems := []; emane_nems_oserror := false |}.

(** A fresh manager in that session; [start] is the option [nem_id_start]. *)
Definition demo_world (start : Z) : World :=
  {| manager := EmaneManager_init (demo_session start);
     session := demo_session start;
     ifaces := demo_ifaces; nodes := demo_nodes; nets := demo_nets;
     model_registry := {["rfpipe" := rfpipe]};
     log := [] |}.

(** [core.utils.iface_config_id] as the examples take it. *)
Definition demo_config_id (node_id iface_id : Z) : Z := node_id * 1000 + iface_id.

Definition demo_getxyz (lat lon alt : Q) : Q * Q * Q := (lon, lat, alt).
Definition demo_getgeo (x y z : Q) : Q * Q * Q := (y, x, z).
Definition demo_link_color (network_id : Z) : string := "#000000".

(** The state a computation leaves behind, and its result. *)
Definition exec {A} (c : M A) (w : World) : World := snd (c w).
Definition eval {A} (c : M A) (w : World) : Res A := fst (c w).


(** ** Auxiliary definitions for the statements *)

(** The port of NEM id [k] is [47000 + k], as a test. *)
Definition port_ok (k : nat) : bool :=
  match py_int ("47" +:+ format_03 (Z.of_nat k)) with
  | Some port => port =? 47000 + Z.of_nat k
  | None => false
  end.

(** The sort key of a pair, when the interface has a node. *)
Definition iface_key (w : World) (x : net_ref * iface_ref) : option (Z * Z) :=
  match iface_node (ifaces w (snd x)) with
  | Some node => Some (node_id (nodes w node), iface_id (ifaces w (snd x)))
  | None => None
  end.

(** What [get_ifaces] returns, as a function of the state. *)
Definition sorted_ifaces (w : World) : list (net_ref * iface_ref) :=
  py_sorted (omap (fun x => match iface_key w x with
                            | Some k => Some (k, x)
                            | None => None
                            end) (collect_ifaces w)).

(** The commands one iteration of the loop in [shutdown] issues. *)
Definition iface_shutdown_events (w : World) (iface : iface_ref) : list Event :=
  match iface_node (ifaces w iface) with
  | None => []
  | Some node =>
      if node_up (nodes w node) then
        if is_CoreNode (nodes w node)
        then [IfaceShutdown iface; NodeCmd node (kill_cmd (iface_name (ifaces w iface)))]
        else [HostCmd node (kill_cmd (iface_name (ifaces w iface)))]
      else []
  end.

(** Everything one call of [shutdown] issues. *)
Definition shutdown_events (w : World) : list Event :=
  match _emane_nets (manager w) with
  | [] => []
  | _ =>
      (if bool_decide (link_enabled (options (session w)) = 1)
       then [LinkMonitorStop] else [])
      ++ flat_map (fun x => iface_shutdown_events w (snd x)) (sorted_ifaces w)
      ++ [EventManagerShutdown]
  end.

(** Two states that differ at most in the position hooks of interfaces and
    in the log. *)
Definition same_but_hooks (w0 w : World) : Prop :=
  manager w = manager w0 /\ session w = session w0 /\ nodes w = nodes w0
  /\ nets w = nets w0 /\ model_registry w = model_registry w0
  /\ forall i, Iface_set_poshook (ifaces w i) None
               = Iface_set_poshook (ifaces w0 i) None.

(** All (network, interface) pairs of the registered networks, in the order
    of registration and attachment. *)
Definition candidate_pairs (w : World) : list (net_ref * iface_ref) :=
  flat_map (fun net => map (pair net) (net_get_ifaces (nets w net)))
           (dict_values (_emane_nets (manager w))).

(** The pairs that are not skipped: the network has a model, the interface
    has a node and is a [TunTap]. *)
Definition kept_pair (w : World) (x : net_ref * iface_ref) : bool :=
  match wireless_model (nets w (fst x)) with
  | None => false
  | Some _ =>
      match iface_node (ifaces w (snd x)) with
      | None => false
      | Some _ => is_TunTap (ifaces w (snd x))
      end
  end.

(** Ascending order of (node id, interface id) between two pairs. *)
Definition pair_le (w : World) (x y : net_ref * iface_ref) : Prop :=
  exists n1 n2,
    iface_node (ifaces w (snd x)) = Some n1
    /\ iface_node (ifaces w (snd y)) = Some n2
    /\ (node_id (nodes w n1) < node_id (nodes w n2)
        \/ (node_id (nodes w n1) = node_id (nodes w n2)
            /\ iface_id (ifaces w (snd x)) <= iface_id (ifaces w (snd y)))).


(** A coordinate that fits the 16-bit coordinate space. *)
Definition in_coordinate_space (c : Z) : bool := (0 <=? c) && (c <? 65536).

(** The three truncated coordinates of an inbound event. *)
Definition event_xyz (getxyz : Q -> Q -> Q -> Q * Q * Q) (lat lon alt : Q)
    : Z * Z * Z :=
  let '(x, y, z) := getxyz lat lon alt in (py_trunc x, py_trunc y, py_trunc z).

(** Some caller takes a port from the [platformport] counter. *)
Definition take_platformport (m : EmaneManager) : EmaneManager :=
  {| nems_to_ifaces := nems_to_ifaces m; ifaces_to_nems := ifaces_to_nems m;
     _emane_nets := _emane_nets m;
     platformport := platformport m + 1; transformport := transformport m;
     node_configs := node_configs m; node_models := node_models m |}.

(** The demo session after network 1 was added, one platform port was taken
    and the interface (node 2, interface 0) got its NEM id. *)
Definition used_world : World :=
  let w := exec (add_node 1%positive) (demo_world 1) in
  let w := with_manager w (take_platformport (manager w)) in
  exec (next_nem_id 1%positive) w.


(** The NEM id of an entry [(nem_id, lon, lat, alt)]. *)
Definition entry_nem (e : Z * Q * Q * Z) : Z := fst (fst (fst e)).


(** The demo session after [set_config] planted external = 1 for rfpipe at
    the key of (node 2, interface 0) only. *)
Definition planted_world : World :=
  exec (set_config (demo_config_id 2 0) "rfpipe" (Some {[ "external" := "1" ]}))
       (demo_world 1).

(** ** The rest of the manager *)

Inductive EmaneState := SUCCESS | NOT_NEEDED | NOT_READY.

Definition with_nets (w : World) (f : net_ref -> EmaneNet) : World :=
  {| manager := manager w; session := session w; ifaces := ifaces w;
     nodes := nodes w; nets := f; model_registry := model_registry w;
     log := log w |}.

(** Modelled from the spec: [EmaneNet.setmodel] associates the model class
    with the network. *)
Definition EmaneNet_setmodel (n : EmaneNet) (model_class : EmaneModel) : EmaneNet :=
  {| net_id := net_id n; net_name := net_name n;
     wireless_model := Some model_class; net_get_ifaces := net_get_ifaces n |}.

(** The [CoreNode]s of one network's interfaces, as [getnodes] adds them. *)
Definition net_core_nodes (w : World) (emane_net : net_ref) : list node_ref :=
  flat_map
    (fun iface =>
       match iface_node (ifaces w iface) with
       | Some node => if is_CoreNode (nodes w node) then [node] else []
       | None => []
       end)
    (net_get_ifaces (nets w emane_net)).

Definition getnodes : M (gset node_ref) := fun w =>
  (Ok (list_to_set (flat_map (net_core_nodes w)
                      (dict_values (_emane_nets (manager w))))), w).

(** One iteration of the loop of [check_node_models]. *)
Definition check_node_model (entry : Z * net_ref) : M unit :=
  let '(node_id, emane_net) := entry in
  w <~ get_world ;;
  match wireless_model (nets w emane_net) with
  | Some _ => ret tt
  | None =>
      match node_models (manager w) !! node_id with
      | None => raise ValueError
      | Some model_name =>
          if bool_decide (model_name = "") then raise ValueError
          else
            config <~ get_config node_id model_name true ;;
            model_class <~ get_model model_name ;;
            modify (fun w => with_nets w
                      (<[emane_net := EmaneNet_setmodel (nets w emane_net) model_class]>
                         (nets w)))
      end
  end.

Definition check_node_models : M unit :=
  w <~ get_world ;;
  forM_ check_node_model (_emane_nets (manager w)).

Section Setup.

(** The [EmaneNet] objects among [session.nodes], in the order of that
    dictionary, and whether the EMANE python bindings could be imported. *)
Variable session_emane_nets : list net_ref.
Variable LocationEvent : bool.

Definition setup : M EmaneState :=
  forM_ add_node session_emane_nets ;;;
  w <~ get_world ;;
  match _emane_nets (manager w) with
  | [] => ret NOT_NEEDED
  | _ =>
      if negb LocationEvent
      then raise (CoreError "EMANE python bindings are not installed")
      else check_node_models ;;; ret SUCCESS
  end.

End Setup.


(** A state reached from [w0] by giving a model to some of the networks
    [visited] that had none; nothing else differs. *)
Definition models_added (visited : list net_ref) (w0 w : World) : Prop :=
  manager w = manager w0 /\ session w = session w0 /\ ifaces w = ifaces w0
  /\ nodes w = nodes w0 /\ model_registry w = model_registry w0
  /\ log w = log w0
  /\ forall r,
       nets w r = nets w0 r
       \/ (r ∈ visited /\ wireless_model (nets w0 r) = None
           /\ exists cls, nets w r = EmaneNet_setmodel (nets w0 r) cls).


(** Whether the interface's node is up. *)
Definition iface_up (w : World) (iface : iface_ref) : bool :=
  match iface_node (ifaces w iface) with
  | Some node => node_up (nodes w node)
  | None => false
  end.

(** In [w] exactly the interfaces [cleared] lost their position hook since
    [w0]; the interfaces are otherwise as in [w0]. *)
Definition hooks_cleared (cleared : list iface_ref) (w0 w : World) : Prop :=
  forall i,
    ifaces w i = if bool_decide (i ∈ cleared)
                 then Iface_set_poshook (ifaces w0 i) None
                 else ifaces w0 i.


(** [LinkData] with its two ends exchanged. *)
Definition LinkData_swap (l : LinkData) : LinkData :=
  {| message_type := message_type l; link_type := link_type l;
     node1_id := node2_id l; node2_id := node1_id l;
     network_id := network_id l; color := color l |}.


(** The demo session with network 5, which has no model, added and rfpipe
    selected for it in [node_models]. *)
Definition selected_world : World :=
  let w := exec (add_node 2%positive) (demo_world 1) in
  with_manager w
    (set_node_configs (manager w) (node_configs (manager w)) {[ 5 := "rfpipe" ]}).


(** * Properties *)

Section Properties.

Variable iface_config_id : Z -> Z -> Z.
Variable getxyz : Q -> Q -> Q -> Q * Q * Q.
Variable getgeo : Q -> Q -> Q -> Q * Q * Q.
Variable get_link_color : Z -> string.

(** ** Configuration lookup *)

Lemma get_config_stored (w : World) (key : Z) (model : string) (cls : EmaneModel) :
  model_registry w !! model = Some cls ->
  get_config key model false w = (Ok (stored_lookup (manager w) key model), w).
Proof.
  intros Hreg. unfold get_config, bind, get_model, get_world, stored_lookup.
  rewrite Hreg. simpl.
  destruct (node_configs (manager w) !! key) as [mc|] eqn:Hk; simpl; [|done].
  case_bool_decide as Hmc.
  - by destruct (mc !! model).
  - subst mc. by rewrite lookup_empty.
Qed.

Lemma truthy_first_nonempty (c : option Config) rest d :
  first_nonempty (c :: rest) d
  = if truthy c then or_default c d else first_nonempty rest d.
Proof.
  destruct c as [c|]; simpl; [|done].
  by case_bool_decide.
Qed.

(** C1: for an interface with a node, on a network whose model is a
    registered one, [get_iface_config] returns the first non-empty stored
    configuration among the keys (node id, interface id), node id and
    network id, in that order, and the model's default values when none of
    the three is non-empty; it raises nothing and changes nothing. *)
Theorem get_iface_config_priority
    (w : World) (emane_net : net_ref) (iface : iface_ref)
    (wm cls : EmaneModel) (node : node_ref) :
  wireless_model (nets w emane_net) = Some wm ->
  model_registry w !! model_name wm = Some cls ->
  iface_node (ifaces w iface) = Some node ->
  get_iface_config iface_config_id emane_net iface w
  = (Ok (first_nonempty
           [ stored_lookup (manager w)
               (iface_config_id (node_id (nodes w node)) (iface_id (ifaces w iface)))
               (model_name wm);
             stored_lookup (manager w) (node_id (nodes w node)) (model_name wm);
             stored_lookup (manager w) (net_id (nets w emane_net)) (model_name wm) ]
           (default_values wm)),
     w).
Proof.
  intros Hwm Hreg Hnode. rewrite !truthy_first_nonempty.
  unfold get_iface_config, bind at 1 2 3, get_world. rewrite Hwm, Hnode. simpl.
  unfold bind at 1. rewrite (get_config_stored _ _ _ _ Hreg).
  set (l1 := stored_lookup _ (iface_config_id _ _) _).
  set (l2 := stored_lookup _ (node_id _) _).
  set (l3 := stored_lookup _ (net_id _) _).
  destruct (truthy l1) eqn:H1.
  - unfold bind, ret. simpl. by rewrite H1.
  - unfold bind at 1. rewrite (get_config_stored _ _ _ _ Hreg). fold l2.
    destruct (truthy l2) eqn:H2.
    + done.
    + unfold bind at 1. rewrite (get_config_stored _ _ _ _ Hreg). fold l3.
      unfold ret. simpl. destruct l3 as [c|]; simpl; [|done].
      by case_bool_decide.
Qed.

(** ** NEM allocation *)

Lemma next_free_free (fuel : nat) (nems : gmap Z iface_ref) (n : Z) :
  (size (filter (fun k : Z => (n <= k)%Z) (dom nems)) <= fuel)%nat ->
  nems !! next_free fuel nems n = None.
Proof.
  revert n. induction fuel as [|fuel IH]; intros n Hsize; simpl.
  - destruct (nems !! n) as [i|] eqn:Hn; [|done]. exfalso.
    assert (n ∈ filter (fun k => n <= k) (dom nems)) as Hin.
    { apply elem_of_filter. split; [lia|]. apply elem_of_dom. eauto. }
    assert (size (filter (fun k => n <= k) (dom nems)) = 0%nat) as H0 by lia.
    apply size_empty_iff in H0. apply H0 in Hin.
    by apply not_elem_of_empty in Hin.
  - case_bool_decide as Hn; [|by apply eq_None_not_Some].
    apply IH.
    assert (filter (fun k => n + 1 <= k) (dom nems)
            ⊂ filter (fun k => n <= k) (dom nems)) as Hsub.
    { apply (strict_spec_alt (A := gset Z)). split.
      - intros k. rewrite !elem_of_filter. intros [? ?]. split; [lia|done].
      - intros Heq. assert (n ∈ filter (fun k => n + 1 <= k) (dom nems)) as Hbad.
        { rewrite Heq. apply elem_of_filter. split; [lia|]. by apply elem_of_dom. }
        apply elem_of_filter in Hbad. lia. }
    apply subset_size in Hsub. lia.
Qed.

(** The loop stops at an id that is absent from the dictionary. *)
Lemma next_free_spec (nems : gmap Z iface_ref) (start : Z) :
  nems !! next_free (size nems) nems start = None.
Proof.
  apply next_free_free. rewrite <- size_dom.
  apply subseteq_size. intros k. rewrite elem_of_filter. by intros [_ Hk].
Qed.

(** It is the first such id from [start] upwards. *)
Lemma next_free_least (fuel : nat) (nems : gmap Z iface_ref) (start k : Z) :
  start <= k < next_free fuel nems start -> is_Some (nems !! k).
Proof.
  revert start. induction fuel as [|fuel IH]; intros start; simpl; [lia|].
  case_bool_decide as Hs; [|lia].
  intros Hk. destruct (decide (k = start)) as [->|Hne]; [done|].
  apply (IH (start + 1)). lia.
Qed.

Lemma next_nem_id_manager (w : World) (iface : iface_ref) :
  manager (exec (next_nem_id iface) w)
  = let m := manager w in
    let nem_id := next_free (size (nems_to_ifaces m)) (nems_to_ifaces m)
                    (nem_id_start (options (session w))) in
    set_nem_maps m (<[nem_id := iface]> (nems_to_ifaces m))
                   (<[iface := nem_id]> (ifaces_to_nems m)).
Proof.
  unfold exec, next_nem_id, write_nem, bind, get_world, modify, attr_of. simpl.
  destruct (emane_nems_oserror (session w)); [done|].
  by destruct (iface_node (ifaces w iface)).
Qed.





(** ** NEM ports *)

Lemma port_ok_below_1000 : forallb port_ok (seq 0 1000) = true.
Proof. vm_compute. reflexivity. Qed.

Lemma py_int_port (n : Z) :
  0 <= n <= 999 -> py_int ("47" +:+ format_03 n) = Some (47000 + n).
Proof.
  intros Hn.
  pose proof (proj1 (forallb_forall port_ok (seq 0 1000)) port_ok_below_1000
                (Z.to_nat n)) as Hk.
  unfold port_ok in Hk. rewrite Z2Nat.id in Hk by lia.
  assert (In (Z.to_nat n) (seq 0 1000)) as Hin by (apply in_seq; lia).
  specialize (Hk Hin).
  destruct (py_int ("47" +:+ format_03 n)) as [port|]; [|done].
  apply Z.eqb_eq in Hk. by subst.
Qed.

(** C3, as the code has it: for an interface whose assigned NEM id [n] is
    between 0 and 999, [get_nem_port] returns exactly [47000 + n] (and
    changes nothing). *)
Theorem get_nem_port_three_digits (w : World) (iface : iface_ref) (n : Z) :
  ifaces_to_nems (manager w) !! iface = Some n ->
  0 <= n <= 999 ->
  get_nem_port iface w = (Ok (47000 + n), w).
Proof.
  intros Hnem Hn. unfold get_nem_port, bind, get_nem_id. rewrite Hnem.
  by rewrite (py_int_port n Hn).
Qed.


(** ** Sorting *)

Lemma key_le_total (a b : Z * Z) : key_le a b = false -> key_le b a = true.
Proof. unfold key_le. destruct a, b; simpl. lia. Qed.

Lemma key_le_trans (a b c : Z * Z) :
  key_le a b = true -> key_le b c = true -> key_le a c = true.
Proof. unfold key_le. destruct a, b, c; simpl. lia. Qed.

Lemma sorted_insert_perm {A} (x : (Z * Z) * A) l :
  sorted_insert x l ≡ₚ x :: l.
Proof.
  induction l as [|y l IH]; simpl; [done|].
  destruct (key_le x.1 y.1); [done|]. rewrite IH. apply Permutation_swap.
Qed.

Lemma sort_keyed_perm {A} (l : list ((Z * Z) * A)) : sort_keyed l ≡ₚ l.
Proof.
  induction l as [|x l IH]; simpl; [done|].
  by rewrite sorted_insert_perm, IH.
Qed.

Lemma sorted_insert_sorted {A} (x : (Z * Z) * A) l :
  StronglySorted (fun a b => key_le a.1 b.1 = true) l ->
  StronglySorted (fun a b => key_le a.1 b.1 = true) (sorted_insert x l).
Proof.
  induction l as [|y l IH]; simpl; intros Hs.
  - repeat constructor.
  - apply StronglySorted_inv in Hs as [Hl Hy].
    destruct (key_le x.1 y.1) eqn:Hxy.
    + constructor; [by constructor|]. constructor; [done|].
      eapply Forall_impl; [exact Hy|]. intros z Hz. simpl in *.
      by eapply key_le_trans.
    + constructor; [by apply IH|].
      rewrite sorted_insert_perm. constructor; [|done].
      by apply key_le_total.
Qed.

Lemma sort_keyed_sorted {A} (l : list ((Z * Z) * A)) :
  StronglySorted (fun a b => key_le a.1 b.1 = true) (sort_keyed l).
Proof.
  induction l as [|x l IH]; simpl; [constructor|].
  by apply sorted_insert_sorted.
Qed.

(** [sorted] is stable: elements with equal keys keep their order. *)
Lemma sorted_insert_first {A} (x : (Z * Z) * A) l :
  Forall (fun y => key_le x.1 y.1 = true) l -> sorted_insert x l = x :: l.
Proof.
  destruct l as [|y l]; simpl; [done|].
  intros Hall. apply Forall_inv in Hall. by rewrite Hall.
Qed.

(** ** The interfaces of the registered networks *)

Lemma collect_ifaces_filter (w : World) :
  collect_ifaces w = filter (fun x => kept_pair w x = true) (candidate_pairs w).
Proof.
  unfold collect_ifaces, candidate_pairs.
  induction (dict_values (_emane_nets (manager w))) as [|net l IH]; simpl; [done|].
  rewrite filter_app, <- IH. f_equal. clear IH.
  destruct (wireless_model (nets w net)) as [wm|] eqn:Hwm.
  - induction (net_get_ifaces (nets w net)) as [|i li IHi]; simpl; [done|].
    rewrite filter_cons, <- IHi. unfold kept_pair. simpl. rewrite Hwm.
    destruct (iface_node (ifaces w i)); [|by rewrite decide_False].
    destruct (is_TunTap (ifaces w i));
      [by rewrite decide_True|by rewrite decide_False].
  - induction (net_get_ifaces (nets w net)) as [|i li IHi]; simpl; [done|].
    rewrite filter_cons, <- IHi. unfold kept_pair. simpl. rewrite Hwm.
    by rewrite decide_False.
Qed.

Lemma collect_ifaces_key (w : World) (x : net_ref * iface_ref) :
  x ∈ collect_ifaces w -> is_Some (iface_key w x).
Proof.
  rewrite collect_ifaces_filter, list_elem_of_filter. intros [Hk _].
  unfold kept_pair in Hk. unfold iface_key.
  destruct (wireless_model _); [|done].
  by destruct (iface_node (ifaces w x.2)).
Qed.

Lemma bind_ok {A B} (c : M A) (k : A -> M B) (w w' : World) (a : A) :
  c w = (Ok a, w') -> bind c k w = k a w'.
Proof. intros Hc. unfold bind. by rewrite Hc. Qed.

Lemma bind_raise {A B} (c : M A) (k : A -> M B) (w w' : World) (e : exn) :
  c w = (Raise e, w') -> bind c k w = (Raise e, w').
Proof. intros Hc. unfold bind. by rewrite Hc. Qed.

Lemma iface_sort_key_ok (w : World) (x : net_ref * iface_ref) (k : Z * Z) :
  iface_key w x = Some k -> iface_sort_key x w = (Ok k, w).
Proof.
  unfold iface_key, iface_sort_key, bind, get_world, attr_of.
  destruct (iface_node (ifaces w x.2)); [|done]. by intros [= <-].
Qed.

Lemma mapM_sort_keys (w : World) (l : list (net_ref * iface_ref)) :
  Forall (fun x => is_Some (iface_key w x)) l ->
  mapM (fun x => k <~ iface_sort_key x ;; ret (k, x)) l w
  = (Ok (omap (fun x => match iface_key w x with
                        | Some k => Some (k, x)
                        | None => None
                        end) l), w).
Proof.
  induction 1 as [|x l [k Hk] _ IH]; [done|].
  cbn [mapM omap list_omap]. rewrite Hk.
  erewrite bind_ok; [|erewrite bind_ok; [reflexivity|by apply iface_sort_key_ok]].
  erewrite bind_ok; [|exact IH]. done.
Qed.

(** [get_ifaces] raises nothing, changes nothing and returns
    [sorted_ifaces]. *)
Lemma get_ifaces_ok (w : World) : get_ifaces w = (Ok (sorted_ifaces w), w).
Proof.
  unfold get_ifaces, bind at 1, get_world. unfold bind.
  rewrite mapM_sort_keys; [done|].
  apply Forall_forall. intros x Hx. by apply collect_ifaces_key.
Qed.


Lemma omap_keys_snd (w : World) (l : list (net_ref * iface_ref)) :
  Forall (fun x => is_Some (iface_key w x)) l ->
  (omap (fun x => match iface_key w x with
                  | Some k => Some (k, x)
                  | None => None
                  end) l).*2 = l.
Proof.
  induction 1 as [|x l [k Hk] _ IH]; [done|].
  cbn [omap list_omap]. rewrite Hk. simpl. f_equal. exact IH.
Qed.

Lemma sorted_ifaces_perm (w : World) : sorted_ifaces w ≡ₚ collect_ifaces w.
Proof.
  unfold sorted_ifaces, py_sorted. rewrite sort_keyed_perm.
  rewrite omap_keys_snd; [done|].
  apply Forall_forall. intros x Hx. by apply collect_ifaces_key.
Qed.

Lemma key_le_pair_le (w : World) (x y : net_ref * iface_ref) (kx ky : Z * Z) :
  iface_key w x = Some kx -> iface_key w y = Some ky ->
  key_le kx ky = true -> pair_le w x y.
Proof.
  unfold iface_key, pair_le, key_le.
  destruct (iface_node (ifaces w x.2)) as [n1|]; [|done].
  destruct (iface_node (ifaces w y.2)) as [n2|]; [|done].
  intros [= <-] [= <-] Hle. exists n1, n2. simpl in Hle.
  split; [done|]. split; [done|]. lia.
Qed.

Lemma StronglySorted_fmap_impl {A B} (R : A -> A -> Prop) (R' : B -> B -> Prop)
    (f : A -> B) (l : list A) :
  (forall a b, a ∈ l -> b ∈ l -> R a b -> R' (f a) (f b)) ->
  StronglySorted R l -> StronglySorted R' (f <$> l).
Proof.
  intros Himp Hs. induction Hs as [|a l Hs IH Hall]; simpl; [constructor|].
  constructor.
  - apply IH. intros x y Hx Hy. apply Himp; by apply list_elem_of_further.
  - apply Forall_fmap, Forall_forall. intros b Hb. simpl.
    apply Himp; [apply list_elem_of_here|by apply list_elem_of_further|].
    by apply (proj1 (Forall_forall _ _) Hall).
Qed.

Lemma sorted_ifaces_sorted (w : World) :
  StronglySorted (pair_le w) (sorted_ifaces w).
Proof.
  unfold sorted_ifaces, py_sorted.
  eapply StronglySorted_fmap_impl; [|apply sort_keyed_sorted].
  intros [ka a] [kb b] Ha Hb Hle. simpl in *.
  rewrite sort_keyed_perm in Ha, Hb.
  apply list_elem_of_omap in Ha as (a' & _ & Ha).
  apply list_elem_of_omap in Hb as (b' & _ & Hb).
  destruct (iface_key w a') as [ka'|] eqn:Hka; [|done].
  destruct (iface_key w b') as [kb'|] eqn:Hkb; [|done].
  injection Ha as -> ->. injection Hb as -> ->.
  by eapply key_le_pair_le.
Qed.

(** C9, as the code has it: [get_ifaces] raises nothing and returns, sorted
    ascending by (node id, interface id), exactly the (network, interface)
    pairs of the registered networks whose network has a model and whose
    interface has a node and is a [TunTap]; every other pair is skipped. *)
Theorem get_ifaces_sorted_tuntaps (w : World) :
  exists l,
    get_ifaces w = (Ok l, w)
    /\ l ≡ₚ filter (fun x => kept_pair w x = true) (candidate_pairs w)
    /\ StronglySorted (pair_le w) l.
Proof.
  exists (sorted_ifaces w). split; [apply get_ifaces_ok|]. split.
  - rewrite <- collect_ifaces_filter. apply sorted_ifaces_perm.
  - apply sorted_ifaces_sorted.
Qed.


(** ** Shutdown *)

Lemma same_but_hooks_refl (w : World) : same_but_hooks w w.
Proof. by repeat split. Qed.

Lemma same_but_hooks_iface (w0 w : World) (i : iface_ref) :
  same_but_hooks w0 w ->
  iface_node (ifaces w i) = iface_node (ifaces w0 i)
  /\ iface_name (ifaces w i) = iface_name (ifaces w0 i)
  /\ iface_id (ifaces w i) = iface_id (ifaces w0 i)
  /\ is_TunTap (ifaces w i) = is_TunTap (ifaces w0 i).
Proof.
  intros (_ & _ & _ & _ & _ & Hi). specialize (Hi i).
  split; [exact (f_equal iface_node Hi)|].
  split; [exact (f_equal iface_name Hi)|].
  split; [exact (f_equal iface_id Hi)|exact (f_equal is_TunTap Hi)].
Qed.

Lemma same_but_hooks_collect (w0 w : World) :
  same_but_hooks w0 w -> collect_ifaces w = collect_ifaces w0.
Proof.
  intros Hs. pose proof Hs as (Hm & _ & _ & Hn & _ & _).
  unfold collect_ifaces. rewrite Hm, Hn.
  apply flat_map_ext. intros net.
  destruct (wireless_model (nets w0 net)); [|done].
  apply flat_map_ext. intros i.
  destruct (same_but_hooks_iface w0 w i Hs) as (-> & _ & _ & ->). done.
Qed.

Lemma same_but_hooks_key (w0 w : World) (x : net_ref * iface_ref) :
  same_but_hooks w0 w -> iface_key w x = iface_key w0 x.
Proof.
  intros Hs. pose proof Hs as (_ & _ & Hn & _ & _ & _).
  unfold iface_key.
  destruct (same_but_hooks_iface w0 w x.2 Hs) as (-> & _ & -> & _).
  by rewrite Hn.
Qed.

Lemma same_but_hooks_sorted (w0 w : World) :
  same_but_hooks w0 w -> sorted_ifaces w = sorted_ifaces w0.
Proof.
  intros Hs. unfold sorted_ifaces. rewrite (same_but_hooks_collect w0 w Hs).
  f_equal. apply list_omap_ext, Forall2_same_length_lookup. split; [done|].
  intros i x y Hx Hy. assert (x = y) as -> by congruence.
  by rewrite (same_but_hooks_key w0 w y Hs).
Qed.

Lemma shutdown_iface_spec (w0 w : World) (iface : iface_ref) :
  same_but_hooks w0 w ->
  is_Some (iface_node (ifaces w0 iface)) ->
  exists w',
    shutdown_iface iface w = (Ok tt, w')
    /\ same_but_hooks w0 w'
    /\ log w' = log w ++ iface_shutdown_events w0 iface.
Proof.
  intros Hs [node Hnode].
  destruct (same_but_hooks_iface w0 w iface Hs) as (Hin & Hname & _ & _).
  pose proof Hs as (Hm & Hse & Hn & Hnets & Hreg & Hi).
  unfold shutdown_iface, iface_shutdown_events.
  erewrite bind_ok; [|reflexivity].
  rewrite Hin, Hnode, Hname, Hn. simpl. unfold bind at 1. simpl.
  destruct (node_up (nodes w0 node)); simpl.
  - assert (forall w1 : World,
              manager w1 = manager w -> session w1 = session w ->
              nodes w1 = nodes w -> nets w1 = nets w ->
              model_registry w1 = model_registry w -> ifaces w1 = ifaces w ->
              same_but_hooks w0
                (with_ifaces w1
                   (<[iface := Iface_set_poshook (ifaces w iface) None]> (ifaces w1))))
      as Hkeep.
    { intros w1 E1 E2 E3 E4 E5 E6. repeat split; simpl; try congruence.
      intros i. rewrite E6. destruct (decide (iface = i)) as [->|Hne].
      - rewrite fn_lookup_insert. simpl. apply Hi.
      - rewrite fn_lookup_insert_ne by done. apply Hi. }
    destruct (is_CoreNode (nodes w0 node)); unfold bind, modify; simpl;
      eexists; (split; [reflexivity|]); split.
    + by apply (Hkeep (emit (emit w _) _)).
    + simpl. by rewrite <- app_assoc.
    + by apply (Hkeep (emit w _)).
    + done.
  - exists w. unfold ret. by rewrite app_nil_r.
Qed.

Lemma forM_shutdown_spec (w0 : World) (l : list (net_ref * iface_ref)) :
  Forall (fun x => is_Some (iface_node (ifaces w0 x.2))) l ->
  forall w, same_but_hooks w0 w ->
  exists w',
    forM_ (fun x => shutdown_iface (snd x)) l w = (Ok tt, w')
    /\ same_but_hooks w0 w'
    /\ log w' = log w ++ flat_map (fun x => iface_shutdown_events w0 (snd x)) l.
Proof.
  induction 1 as [|x l Hx _ IH]; intros w Hs.
  - exists w. simpl. unfold ret. by rewrite app_nil_r.
  - destruct (shutdown_iface_spec w0 w x.2 Hs Hx) as (w1 & H1 & Hs1 & Hl1).
    destruct (IH w1 Hs1) as (w2 & H2 & Hs2 & Hl2).
    exists w2. cbn [forM_ flat_map]. erewrite bind_ok; [|exact H1].
    split; [exact H2|]. split; [done|].
    by rewrite Hl2, Hl1, app_assoc.
Qed.

Lemma sorted_ifaces_node (w : World) :
  Forall (fun x => is_Some (iface_node (ifaces w x.2))) (sorted_ifaces w).
Proof.
  apply Forall_forall. intros x Hx. rewrite sorted_ifaces_perm in Hx.
  apply collect_ifaces_key in Hx as [k Hk]. unfold iface_key in Hk.
  by destruct (iface_node (ifaces w x.2)).
Qed.

(** One call of [shutdown], from any state that differs from [w0] in hooks
    and log only: it raises nothing, issues [shutdown_events w0] and leaves
    such a state again. *)
Lemma shutdown_spec (w0 w : World) :
  same_but_hooks w0 w ->
  exists w',
    shutdown w = (Ok tt, w')
    /\ same_but_hooks w0 w'
    /\ log w' = log w ++ shutdown_events w0.
Proof.
  intros Hs. pose proof Hs as (Hm & Hse & Hn & Hnets & Hreg & Hi).
  unfold shutdown, shutdown_events. erewrite bind_ok; [|reflexivity].
  rewrite Hm. destruct (_emane_nets (manager w0)) as [|p d] eqn:Hd.
  - exists w. unfold ret. by rewrite app_nil_r.
  - unfold links_enabled. erewrite bind_ok; [|reflexivity]. rewrite Hse.
    set (le := bool_decide (link_enabled (options (session w0)) = 1)).
    set (w1 := if le then emit w [LinkMonitorStop] else w).
    assert (same_but_hooks w0 w1) as Hs1 by (unfold w1; by destruct le).
    assert (log w1 = log w ++ (if le then [LinkMonitorStop] else [])) as Hl1.
    { unfold w1. destruct le; simpl; [done|by rewrite app_nil_r]. }
    destruct (forM_shutdown_spec w0 (sorted_ifaces w0) (sorted_ifaces_node w0)
                w1 Hs1) as (w2 & H2 & Hs2 & Hl2).
    exists (emit w2 [EventManagerShutdown]).
    split; [|split].
    + erewrite (bind_ok _ _ w w1 tt); [|by unfold w1; destruct le].
      erewrite bind_ok; [|apply get_ifaces_ok].
      rewrite (same_but_hooks_sorted w0 w1 Hs1).
      erewrite bind_ok; [|exact H2]. done.
    + destruct Hs2 as (? & ? & ? & ? & ? & ?). by repeat split.
    + simpl. rewrite Hl2, Hl1. by rewrite <- !app_assoc.
Qed.

(** C4, as the code has it: [shutdown] never raises; with no network
    registered it issues no command and changes nothing; otherwise it keeps
    the networks registered, so that a second call in a row issues once more
    exactly the commands of the first. *)
Theorem shutdown_twice_repeats (w : World) :
  eval shutdown w = Ok tt
  /\ eval shutdown (exec shutdown w) = Ok tt
  /\ log (exec shutdown w) = log w ++ shutdown_events w
  /\ log (exec shutdown (exec shutdown w))
     = log w ++ shutdown_events w ++ shutdown_events w
  /\ _emane_nets (manager (exec shutdown w)) = _emane_nets (manager w)
  /\ (_emane_nets (manager w) = [] ->
      shutdown_events w = [] /\ shutdown w = (Ok tt, w)).
Proof.
  assert (_emane_nets (manager w) = [] ->
          shutdown_events w = [] /\ shutdown w = (Ok tt, w)) as Hempty.
  { intros Hnets. split.
    - unfold shutdown_events. by rewrite Hnets.
    - unfold shutdown. erewrite bind_ok; [|reflexivity]. by rewrite Hnets. }
  destruct (shutdown_spec w w (same_but_hooks_refl w)) as (w1 & H1 & Hs1 & Hl1).
  destruct (shutdown_spec w w1 Hs1) as (w2 & H2 & Hs2 & Hl2).
  unfold eval, exec. rewrite H1 in *. simpl. rewrite H2. simpl.
  split; [done|]. split; [done|]. split; [done|].
  split; [by rewrite Hl2, Hl1, app_assoc|].
  split; [by destruct Hs1 as (-> & _)|done].
Qed.


(** ** Reset *)

Lemma reset_spec (w : World) :
  reset w
  = (Ok tt,
     emit (with_manager w (set_emane_nets (set_nem_maps (manager w) ∅ ∅) []))
          [EventManagerReset]).
Proof. reflexivity. Qed.

(** What [reset] does from any state: it raises nothing, empties the network
    dictionary and both NEM dictionaries, so that the next NEM id allocated is
    [nem_id_start] again, and leaves the two port counters as they are. *)
Lemma reset_effect (w : World) :
  let w' := exec reset w in
  eval reset w = Ok tt
  /\ _emane_nets (manager w') = []
  /\ nems_to_ifaces (manager w') = ∅
  /\ ifaces_to_nems (manager w') = ∅
  /\ (forall iface, eval (next_nem_id iface) w' = Ok (nem_id_start (options (session w)))
                    \/ eval (next_nem_id iface) w' = Raise AttributeError)
  /\ platformport (manager w') = platformport (manager w)
  /\ transformport (manager w') = transformport (manager w).
Proof.
  simpl. unfold eval, exec. rewrite reset_spec. simpl.
  repeat split; try done.
  intros iface. unfold next_nem_id, write_nem, bind, get_world, modify, attr_of.
  simpl. destruct (emane_nems_oserror (session w)); [by left|].
  destruct (iface_node (ifaces w iface)); [by left|by right].
Qed.

(** C5, at a manager from which one platform port was taken: [reset] empties
    the three dictionaries, yet [platformport] stays at 8101 although the
    session configures 8100, the value [__init__] starts from. *)
Theorem reset_leaves_platformport :
  let w' := exec reset used_world in
  _emane_nets (manager w') = []
  /\ nems_to_ifaces (manager w') = ∅
  /\ ifaces_to_nems (manager w') = ∅
  /\ platformport (manager used_world) = 8101
  /\ platformport (manager w') = 8101
  /\ platformport (EmaneManager_init (session w')) = 8100.
Proof.
  destruct (reset_effect used_world) as (_ & H1 & H2 & H3 & _ & H4 & _).
  cbv zeta in *. rewrite H1, H2, H3, H4.
  repeat split; reflexivity.
Qed.


(** ** Inbound location events *)

Lemma bit_check_range (c : Z) :
  (16 <? bit_length c) || (c <? 0) = negb (in_coordinate_space c).
Proof.
  unfold bit_length, in_coordinate_space.
  destruct (Z.eqb_spec c 0) as [->|Hc]; [done|].
  destruct (Z.ltb_spec c 0) as [Hneg|Hpos].
  - rewrite orb_true_r. by rewrite (proj2 (Z.leb_gt 0 c)) by lia.
  - rewrite orb_false_r. rewrite (proj2 (Z.leb_le 0 c)) by lia. simpl.
    rewrite Z.abs_eq by lia.
    assert (2 ^ 16 <= c <-> 16 <= Z.log2 c) as Hlog
      by (apply Z.log2_le_pow2; lia).
    change (2 ^ 16) with 65536 in Hlog.
    destruct (Z.ltb_spec 16 (Z.log2 c + 1)), (Z.ltb_spec c 65536); simpl; lia.
Qed.

Lemma range_checks (x y z : Z) :
  (16 <? bit_length x) || (x <? 0) || ((16 <? bit_length y) || (y <? 0))
    || ((16 <? bit_length z) || (z <? 0))
  = negb (in_coordinate_space x && in_coordinate_space y && in_coordinate_space z).
Proof.
  rewrite !bit_check_range.
  by destruct (in_coordinate_space x), (in_coordinate_space y),
       (in_coordinate_space z).
Qed.

(** C6, as the code has it.  With [(x, y, z)] the truncated coordinates of
    the event: an event for an unknown NEM id is dropped (false, nothing
    broadcast, nothing changed); for a known NEM id whose interface has a
    node, the event is dropped in the same way when a coordinate is negative
    or needs more than 16 bits, and when the session has no node with the
    id of the interface's node; otherwise the position of the session's node
    is set to [(x, y, z)] and its geo position to [(lon, lat, alt)], no hook
    runs (nothing is published, no interface changes), one node-changed
    broadcast is issued and the result is true. *)
Theorem handlelocationeventtoxyz_cases
    (w : World) (nemid : Z) (lat lon alt : Q) (x y z : Z) :
  event_xyz getxyz lat lon alt = (x, y, z) ->
  let run := handlelocationeventtoxyz getxyz nemid lat lon alt w in
  let inside := in_coordinate_space x && in_coordinate_space y
                && in_coordinate_space z in
  (nems_to_ifaces (manager w) !! nemid = None -> run = (Ok false, w))
  /\ (forall iface node0,
        nems_to_ifaces (manager w) !! nemid = Some iface ->
        iface_node (ifaces w iface) = Some node0 ->
        (inside = false -> run = (Ok false, w))
        /\ (inside = true ->
            session_nodes (session w) !! node_id (nodes w node0) = None ->
            run = (Ok false, w))
        /\ (forall node,
              inside = true ->
              session_nodes (session w) !! node_id (nodes w node0) = Some node ->
              exists w',
                run = (Ok true, w')
                /\ log w' = log w ++ [BroadcastNode node]
                /\ position (nodes w' node)
                   = {| pos_x := inject_Z x; pos_y := inject_Z y;
                        pos_z := inject_Z z; pos_lon := Some lon;
                        pos_lat := Some lat; pos_alt := Some alt |}
                /\ (forall r, r <> node -> nodes w' r = nodes w r)
                /\ ifaces w' = ifaces w
                /\ manager w' = manager w
                /\ session w' = session w)).
Proof.
  intros Hxyz run inside. unfold event_xyz in Hxyz. subst run.
  unfold handlelocationeventtoxyz, get_iface.
  split.
  - intros Hnem. erewrite bind_ok; [|reflexivity]. by rewrite Hnem.
  - intros iface node0 Hnem Hnode.
    erewrite bind_ok; [|reflexivity]. rewrite Hnem.
    erewrite bind_ok; [|reflexivity]. rewrite Hnode.
    erewrite bind_ok; [|reflexivity].
    destruct (getxyz lat lon alt) as [[qx qy] qz].
    injection Hxyz as -> -> ->.
    rewrite range_checks. fold inside.
    split; [|split].
    + by intros ->.
    + intros -> Hs. simpl. by rewrite Hs.
    + intros node -> Hs. simpl. rewrite Hs.
      eexists. split; [reflexivity|]. simpl.
      rewrite !fn_lookup_insert. simpl.
      repeat split; try done.
      intros r Hr. by rewrite !fn_lookup_insert_ne.
Qed.


(** ** Links between NEMs *)

(** C7: [get_nem_link] returns [None], raising nothing, when either NEM id
    has no interface or when the two interfaces are on different networks;
    when both are on the same network (and have a node) it returns a wireless
    [LinkData] with the two node ids, the network's id and the colour the
    session gives for that network. *)
Theorem get_nem_link_cases (w : World) (nem1 nem2 : Z) (flags : MessageFlags) :
  let run := get_nem_link get_link_color nem1 nem2 flags w in
  (nems_to_ifaces (manager w) !! nem1 = None
   \/ nems_to_ifaces (manager w) !! nem2 = None ->
   run = (Ok None, w))
  /\ (forall iface1 iface2,
        nems_to_ifaces (manager w) !! nem1 = Some iface1 ->
        nems_to_ifaces (manager w) !! nem2 = Some iface2 ->
        iface_net (ifaces w iface1) <> iface_net (ifaces w iface2) ->
        run = (Ok None, w))
  /\ (forall iface1 iface2 emane_net node1 node2,
        nems_to_ifaces (manager w) !! nem1 = Some iface1 ->
        nems_to_ifaces (manager w) !! nem2 = Some iface2 ->
        iface_net (ifaces w iface1) = Some emane_net ->
        iface_net (ifaces w iface2) = Some emane_net ->
        iface_node (ifaces w iface1) = Some node1 ->
        iface_node (ifaces w iface2) = Some node2 ->
        run = (Ok (Some {| message_type := flags;
                           link_type := WIRELESS;
                           node1_id := node_id (nodes w node1);
                           node2_id := node_id (nodes w node2);
                           network_id := net_id (nets w emane_net);
                           color := get_link_color (net_id (nets w emane_net)) |}),
               w)).
Proof.
  intros run. subst run. unfold get_nem_link, get_iface.
  split; [|split].
  - intros Hnone. erewrite bind_ok; [|reflexivity].
    destruct (nems_to_ifaces (manager w) !! nem1) as [iface1|]; [|done].
    destruct Hnone as [?|Hnone]; [done|].
    erewrite bind_ok; [|reflexivity]. erewrite bind_ok; [|reflexivity].
    by rewrite Hnone.
  - intros iface1 iface2 H1 H2 Hnet.
    erewrite bind_ok; [|reflexivity]. rewrite H1.
    erewrite bind_ok; [|reflexivity]. erewrite bind_ok; [|reflexivity].
    rewrite H2. by rewrite bool_decide_eq_true_2.
  - intros iface1 iface2 emane_net node1 node2 H1 H2 Hn1 Hn2 Hd1 Hd2.
    erewrite bind_ok; [|reflexivity]. rewrite H1.
    erewrite bind_ok; [|reflexivity]. erewrite bind_ok; [|reflexivity].
    rewrite H2, Hn1, Hn2, Hd1, Hd2.
    by rewrite bool_decide_eq_false_2 by (intros Hne; by apply Hne).
Qed.

(** ** Registering networks *)





(** ** Outbound positions *)

Lemma get_nem_position_unknown (w : World) (iface : iface_ref) :
  ifaces_to_nems (manager w) !! iface = None ->
  get_nem_position getgeo iface w = (Ok None, w).
Proof.
  intros Hnem. unfold get_nem_position, get_nem_id.
  erewrite bind_ok; [|reflexivity]. by rewrite Hnem.
Qed.

Lemma get_nem_position_known (w : World) (iface : iface_ref) (n : Z)
    (node : node_ref) :
  ifaces_to_nems (manager w) !! iface = Some n ->
  iface_node (ifaces w iface) = Some node ->
  exists entry w',
    get_nem_position getgeo iface w = (Ok (Some entry), w')
    /\ entry_nem entry = n
    /\ manager w' = manager w /\ ifaces w' = ifaces w /\ log w' = log w.
Proof.
  intros Hnem Hnode. unfold get_nem_position, get_nem_id.
  erewrite bind_ok; [|reflexivity]. rewrite Hnem.
  erewrite bind_ok; [|reflexivity]. rewrite Hnode.
  erewrite bind_ok; [|reflexivity].
  destruct (getgeo _ _ _) as [[lat lon] alt].
  unfold bind, modify, ret. simpl. eexists _, _. by split.
Qed.

Lemma get_nem_position_frame (w : World) (iface : iface_ref) :
  let w' := exec (get_nem_position getgeo iface) w in
  manager w' = manager w /\ ifaces w' = ifaces w /\ log w' = log w.
Proof.
  simpl. destruct (ifaces_to_nems (manager w) !! iface) as [n|] eqn:Hnem.
  - destruct (iface_node (ifaces w iface)) as [node|] eqn:Hnode.
    + destruct (get_nem_position_known w iface n node Hnem Hnode)
        as (e & w' & Hrun & _ & Hm). unfold exec. by rewrite Hrun.
    + unfold exec, get_nem_position, get_nem_id.
      erewrite bind_ok; [|reflexivity]. rewrite Hnem.
      erewrite bind_ok; [|reflexivity]. rewrite Hnode. done.
  - unfold exec. by rewrite get_nem_position_unknown.
Qed.

Lemma gather_positions_frame (moved : list iface_ref) :
  forall (acc : list (Z * Q * Q * Z)) (w : World),
  let w' := exec (gather_positions getgeo moved acc) w in
  manager w' = manager w /\ ifaces w' = ifaces w /\ log w' = log w.
Proof.
  induction moved as [|iface moved IH]; intros acc w; simpl; [done|].
  pose proof (get_nem_position_frame w iface) as Hf. simpl in Hf.
  unfold exec in *. unfold bind.
  destruct (get_nem_position getgeo iface w) as [[[entry|]|e] w1]; simpl in *.
  - specialize (IH (acc ++ [entry]) w1). simpl in IH.
    destruct IH as (-> & -> & ->). done.
  - specialize (IH acc w1). simpl in IH. destruct IH as (-> & -> & ->). done.
  - done.
Qed.

Lemma gather_positions_ok (moved : list iface_ref) :
  forall (acc : list (Z * Q * Q * Z)) (w0 w : World),
  manager w = manager w0 -> ifaces w = ifaces w0 ->
  (forall i, i ∈ moved -> is_Some (ifaces_to_nems (manager w0) !! i) ->
             is_Some (iface_node (ifaces w0 i))) ->
  exists ps w',
    gather_positions getgeo moved acc w = (Ok (acc ++ ps), w')
    /\ entry_nem <$> ps = omap (fun i => ifaces_to_nems (manager w0) !! i) moved.
Proof.
  induction moved as [|iface moved IH]; intros acc w0 w Hm Hi Hnodes.
  - exists [], w. simpl. unfold ret. by rewrite app_nil_r.
  - cbn [gather_positions omap list_omap].
    assert (forall i, i ∈ moved ->
              is_Some (ifaces_to_nems (manager w0) !! i) ->
              is_Some (iface_node (ifaces w0 i))) as Hrest
      by (intros i Hin; apply Hnodes; by apply list_elem_of_further).
    destruct (ifaces_to_nems (manager w0) !! iface) as [n|] eqn:Hnem.
    + destruct (Hnodes iface (list_elem_of_here _ _)) as [node Hnode]; [by eexists|].
      rewrite <- Hm in Hnem. rewrite <- Hi in Hnode.
      destruct (get_nem_position_known w iface n node Hnem Hnode)
        as (e & w1 & Hrun & He & Hm1 & Hi1 & _).
      erewrite bind_ok; [|exact Hrun].
      destruct (IH (acc ++ [e]) w0 w1) as (ps & w' & Hg & Hps);
        [congruence|congruence|done|].
      exists (e :: ps), w'. rewrite Hg, <- app_assoc.
      split; [done|]. rewrite fmap_cons. by rewrite He, Hps.
    + rewrite <- Hm in Hnem.
      erewrite bind_ok; [|by apply get_nem_position_unknown].
      by apply IH.
Qed.

(** C10: [set_nem_positions] publishes at most once.  For the empty list it
    returns at once and publishes nothing; for a non-empty list (of
    interfaces that have a node when they have a NEM id) it makes exactly one
    [publish_locations] call, whose entries are those of the interfaces with
    an assigned NEM id, in order; the others contribute nothing. *)
Theorem set_nem_positions_one_batch (w : World) (moved : list iface_ref) :
  set_nem_positions getgeo [] w = (Ok tt, w)
  /\ (log (exec (set_nem_positions getgeo moved) w) = log w
      \/ exists ps, log (exec (set_nem_positions getgeo moved) w)
                    = log w ++ [PublishLocations ps])
  /\ (moved <> [] ->
      (forall i, i ∈ moved -> is_Some (ifaces_to_nems (manager w) !! i) ->
                 is_Some (iface_node (ifaces w i))) ->
      exists ps w',
        set_nem_positions getgeo moved w = (Ok tt, w')
        /\ log w' = log w ++ [PublishLocations ps]
        /\ entry_nem <$> ps
           = omap (fun i => ifaces_to_nems (manager w) !! i) moved).
Proof.
  split; [done|]. split.
  - destruct moved as [|iface moved]; [by left|].
    pose proof (gather_positions_frame (iface :: moved) [] w) as (_ & _ & Hl).
    unfold set_nem_positions, exec in *.
    destruct (gather_positions getgeo (iface :: moved) [] w) as [[ps|e] w1]
      eqn:Hg; simpl in Hl.
    + right. exists ps. erewrite bind_ok; [|exact Hg]. simpl. by rewrite Hl.
    + left. erewrite bind_raise; [|exact Hg]. done.
  - intros Hne Hnodes.
    destruct (gather_positions_ok moved [] w w eq_refl eq_refl Hnodes)
      as (ps & w1 & Hg & Hps).
    pose proof (gather_positions_frame moved [] w) as (_ & _ & Hl).
    unfold exec in Hl. rewrite Hg in Hl. simpl in Hl.
    exists ps, (emit w1 [PublishLocations ps]).
    destruct moved as [|iface moved]; [done|].
    unfold set_nem_positions. erewrite bind_ok; [|exact Hg].
    split; [done|]. split; [|done]. simpl. by rewrite Hl.
Qed.


End Properties.

(** * The properties at concrete sessions *)

(** C1 on the demo session: the configuration planted at (node 2,
    interface 0) wins for that interface. *)
Lemma get_iface_config_priority_witness :
  wireless_model (nets planted_world 1%positive) = Some rfpipe
  /\ model_registry planted_world !! model_name rfpipe = Some rfpipe
  /\ iface_node (ifaces planted_world 1%positive) = Some 1%positive
  /\ get_iface_config demo_config_id 1%positive 1%positive planted_world
     = (Ok (<["external" := "1"]> (default_values rfpipe)), planted_world)
  /\ get_iface_config demo_config_id 1%positive 2%positive planted_world
     = (Ok (default_values rfpipe), planted_world).
Proof.
  split; [reflexivity|]. split; [reflexivity|]. split; [reflexivity|].
  rewrite (get_iface_config_priority demo_config_id planted_world
             1%positive 1%positive rfpipe rfpipe 1%positive
             eq_refl eq_refl eq_refl).
  rewrite (get_iface_config_priority demo_config_id planted_world
             1%positive 2%positive rfpipe rfpipe 2%positive
             eq_refl eq_refl eq_refl).
  split; vm_compute; reflexivity.
Defined.




(** C3 on the demo session: NEM id 1 gives port 47001. *)
Lemma get_nem_port_three_digits_witness :
  let w := exec (next_nem_id 1%positive) (demo_world 1) in
  ifaces_to_nems (manager w) !! 1%positive = Some 1
  /\ 0 <= 1 <= 999
  /\ get_nem_port 1%positive w = (Ok 47001, w).
Proof.
  intros w. split; [reflexivity|]. split; [lia|].
  apply (get_nem_port_three_digits w 1%positive 1); [reflexivity|lia].
Defined.

(** C3 fails as stated: with [nem_id_start] 1000 the first interface gets
    NEM id 1000, and its port is 471000, not 48000. *)
Lemma get_nem_port_four_digits :
  let w := exec (next_nem_id 1%positive) (demo_world 1000) in
  ifaces_to_nems (manager w) !! 1%positive = Some 1000
  /\ get_nem_port 1%positive w = (Ok 471000, w)
  /\ 471000 <> 47000 + 1000.
Proof.
  intros w. split; [reflexivity|]. split; [|lia].
  vm_compute. reflexivity.
Qed.

(** C4 on the demo session, before any network is added: [shutdown] issues
    nothing. *)
Lemma shutdown_twice_repeats_witness :
  _emane_nets (manager (demo_world 1)) = []
  /\ shutdown (demo_world 1) = (Ok tt, demo_world 1)
  /\ log (exec shutdown (exec shutdown (demo_world 1))) = [].
Proof.
  destruct (shutdown_twice_repeats (demo_world 1))
    as (_ & _ & _ & Hlog & _ & Hempty).
  destruct (Hempty eq_refl) as [Hev Hrun].
  split; [reflexivity|]. split; [exact Hrun|].
  rewrite Hlog, Hev. reflexivity.
Defined.

(** C4 fails as stated: in the demo session with network 1 added, the second
    [shutdown] in a row issues the interface shutdown, both kills and the
    event-gateway shutdown once more. *)
Lemma shutdown_second_call_issues_commands :
  let w := exec (add_node 1%positive) (demo_world 1) in
  let w1 := exec shutdown w in
  let w2 := exec shutdown w1 in
  eval shutdown w = Ok tt
  /\ eval shutdown w1 = Ok tt
  /\ log w2 = log w1
              ++ [ IfaceShutdown 1%positive;
                   NodeCmd 1%positive (kill_cmd "n2eth0");
                   HostCmd 2%positive (kill_cmd "n3eth0");
                   EventManagerShutdown ]
  /\ log w2 <> log w1.
Proof.
  intros w w1 w2.
  assert (log w2 = log w1
                   ++ [ IfaceShutdown 1%positive;
                        NodeCmd 1%positive (kill_cmd "n2eth0");
                        HostCmd 2%positive (kill_cmd "n3eth0");
                        EventManagerShutdown ]) as Hlog
    by (vm_compute; reflexivity).
  split; [vm_compute; reflexivity|]. split; [vm_compute; reflexivity|].
  split; [exact Hlog|].
  rewrite Hlog. intros Heq. apply (f_equal length) in Heq.
  rewrite length_app in Heq. simpl in Heq. lia.
Qed.

(** C6 on the demo session after interface 1 got NEM id 1: an event inside
    the coordinate space moves node 2 and is broadcast. *)
Lemma handlelocationeventtoxyz_cases_witness :
  event_xyz demo_getxyz 10 20 5 = (20, 10, 5)
  /\ exists w',
       handlelocationeventtoxyz demo_getxyz 1 10 20 5 used_world = (Ok true, w')
       /\ log w' = log used_world ++ [BroadcastNode 1%positive].
Proof.
  split; [reflexivity|].
  destruct (handlelocationeventtoxyz_cases demo_getxyz used_world 1 10 20 5
              20 10 5 eq_refl) as [_ Hknown].
  destruct (Hknown 1%positive 1%positive eq_refl eq_refl) as (_ & _ & Hmove).
  destruct (Hmove 1%positive eq_refl eq_refl) as (w' & Hrun & Hlog & _).
  exists w'. by split.
Defined.

(** C6 fails as stated: in the demo session no NEM id is assigned, and an
    event for NEM 7 whose coordinates (20, 10, 5) are all inside the
    coordinate space is answered with false, with no broadcast and no
    change. *)
Lemma handlelocationeventtoxyz_unknown_nem :
  event_xyz demo_getxyz 10 20 5 = (20, 10, 5)
  /\ in_coordinate_space 20 && in_coordinate_space 10 && in_coordinate_space 5
     = true
  /\ nems_to_ifaces (manager (demo_world 1)) !! 7 = None
  /\ handlelocationeventtoxyz demo_getxyz 7 10 20 5 (demo_world 1)
     = (Ok false, demo_world 1).
Proof. repeat split. Qed.

(** C7 on the demo session after both interfaces got their NEM ids. *)
Lemma get_nem_link_cases_witness :
  let w := exec (next_nem_id 2%positive) used_world in
  get_nem_link demo_link_color 1 2 flag_NONE w
  = (Ok (Some {| message_type := flag_NONE; link_type := WIRELESS;
                 node1_id := 2; node2_id := 3; network_id := 1;
                 color := "#000000" |}), w)
  /\ get_nem_link demo_link_color 1 5 flag_NONE w = (Ok None, w).
Proof.
  intros w.
  destruct (get_nem_link_cases demo_link_color w 1 2 flag_NONE)
    as (_ & _ & Hsame).
  destruct (get_nem_link_cases demo_link_color w 1 5 flag_NONE)
    as (Hnone & _ & _).
  split.
  - exact (Hsame 1%positive 2%positive 1%positive 1%positive 2%positive
             eq_refl eq_refl eq_refl eq_refl eq_refl eq_refl).
  - apply Hnone. right. reflexivity.
Defined.


(** C9 on the demo session with network 1 added. *)
Lemma get_ifaces_sorted_tuntaps_witness :
  let w := exec (add_node 1%positive) (demo_world 1) in
  exists l, get_ifaces w = (Ok l, w) /\ StronglySorted (pair_le w) l.
Proof.
  intros w. destruct (get_ifaces_sorted_tuntaps w) as (l & Hrun & _ & Hs).
  exists l. by split.
Defined.

(** C9 fails as stated: in the demo session with network 1 added, the wired
    interface 3 is attached to network 1, which has a model, and has a node,
    yet the pair is not returned. *)
Lemma get_ifaces_skips_wired_iface :
  let w := exec (add_node 1%positive) (demo_world 1) in
  wireless_model (nets w 1%positive) = Some rfpipe
  /\ 3%positive ∈ net_get_ifaces (nets w 1%positive)
  /\ iface_node (ifaces w 3%positive) = Some 1%positive
  /\ is_TunTap (ifaces w 3%positive) = false
  /\ get_ifaces w = (Ok [(1, 1); (1, 2)]%positive, w)
  /\ (1, 3)%positive ∉ [(1, 1); (1, 2)]%positive.
Proof.
  intros w. split; [reflexivity|]. split; [set_solver|].
  split; [reflexivity|]. split; [reflexivity|].
  split; [vm_compute; reflexivity|].
  intros Hin. apply list_elem_of_In in Hin. simpl in Hin.
  destruct Hin as [[=]|[[=]|[]]].
Qed.

(** C10 on the demo session after interface 1 got NEM id 1: of the moved
    interfaces 2 and 1 only interface 1 has a NEM id. *)
Lemma set_nem_positions_one_batch_witness :
  exists ps w',
    set_nem_positions demo_getgeo [2; 1]%positive used_world = (Ok tt, w')
    /\ log w' = log used_world ++ [PublishLocations ps]
    /\ entry_nem <$> ps = [1].
Proof.
  destruct (set_nem_positions_one_batch demo_getgeo used_world [2; 1]%positive)
    as (_ & _ & Hone).
  destruct Hone as (ps & w' & Hrun & Hlog & Hps); [done| |].
  - intros i Hi _. apply list_elem_of_In in Hi. simpl in Hi.
    destruct Hi as [<-|[<-|[]]]; by eexists.
  - exists ps, w'. split; [exact Hrun|]. split; [exact Hlog|]. exact Hps.
Defined.

(** * Further properties of the manager *)

Section MoreProperties.

Variable getxyz : Q -> Q -> Q -> Q * Q * Q.
Variable getgeo : Q -> Q -> Q -> Q * Q * Q.

(** ** The configuration store *)

(** X1: for a registered model, [get_config] raises nothing, changes nothing
    and returns the configuration stored under the key for that model when
    there is one (even an empty one); when there is none it returns the
    model's default values if [default] is set and [None] otherwise. *)
Theorem get_config_result (w : World) (key : Z) (model : string)
    (cls : EmaneModel) (default : bool) :
  model_registry w !! model = Some cls ->
  get_config key model default w
  = (Ok (match stored_lookup (manager w) key model with
         | Some c => Some c
         | None => if default then Some (default_values cls) else None
         end), w).
Proof.
  intros Hreg. unfold get_config, bind, get_model, get_world, stored_lookup.
  rewrite Hreg. simpl.
  destruct (node_configs (manager w) !! key) as [mc|] eqn:Hk; simpl.
  - case_bool_decide as Hmc.
    + destruct (mc !! model); [done|by destruct default].
    + subst mc. rewrite lookup_empty. by destruct default.
  - by destruct default.
Qed.

(** X2: for a model that is not registered, [get_config] and [set_config]
    raise a [CoreError] and change nothing, whatever is stored. *)
Theorem unknown_model_raises (w : World) (key : Z) (model : string)
    (default : bool) (config : option Config) :
  model_registry w !! model = None ->
  exists msg,
    get_config key model default w = (Raise (CoreError msg), w)
    /\ set_config key model config w = (Raise (CoreError msg), w).
Proof.
  intros Hreg. eexists. split.
  - unfold get_config, bind, get_model. by rewrite Hreg.
  - unfold set_config, bind, get_model. by rewrite Hreg.
Qed.

Lemma set_config_run (w : World) (key : Z) (model : string)
    (config : option Config) (cls : EmaneModel) :
  model_registry w !! model = Some cls ->
  set_config key model config w
  = (Ok tt,
     with_manager w
       (set_node_configs (manager w)
          (<[key := <[model := default ∅ config
                               ∪ default (default_values cls)
                                   (stored_lookup (manager w) key model)]>
                      (default ∅ (node_configs (manager w) !! key))]>
             (node_configs (manager w)))
          (node_models (manager w)))).
Proof.
  intros Hreg. unfold set_config.
  erewrite bind_ok; [|unfold get_model; by rewrite Hreg].
  erewrite bind_ok; [|by apply get_config_result].
  assert ((if truthy config then default ∅ config else ∅) = default ∅ config)
    as ->.
  { destruct config as [c|]; simpl; [|done]. by case_bool_decide. }
  by destruct (stored_lookup (manager w) key model).
Qed.

(** X3: [set_config] followed by [get_config] for the same key and model
    gives the given options laid over what [get_config] gave before (the
    stored configuration, or the model's defaults): an option of the update
    has the update's value, every other option keeps its value.  With no
    update, [set_config] stores what [get_config] gave. *)
Theorem set_config_get_config (w : World) (key : Z) (model : string)
    (config : option Config) (cls : EmaneModel) :
  model_registry w !! model = Some cls ->
  let before := default (default_values cls)
                  (stored_lookup (manager w) key model) in
  let w' := exec (set_config key model config) w in
  eval (set_config key model config) w = Ok tt
  /\ exists after,
       get_config key model false w' = (Ok (Some after), w')
       /\ (forall name value,
             default ∅ config !! name = Some value ->
             after !! name = Some value)
       /\ (forall name,
             default ∅ config !! name = None ->
             after !! name = before !! name).
Proof.
  intros Hreg before w'.
  pose proof (set_config_run w key model config cls Hreg) as Hrun.
  split; [by unfold eval; rewrite Hrun|].
  exists (default ∅ config ∪ before).
  split; [|split].
  - rewrite (get_config_result w' key model cls false)
      by (unfold w', exec; by rewrite Hrun).
    unfold w', exec. rewrite Hrun. simpl.
    unfold stored_lookup at 1. simpl.
    by rewrite lookup_insert_eq; simpl; rewrite lookup_insert_eq.
  - intros name value Hv. by apply lookup_union_Some_l.
  - intros name Hv. by apply lookup_union_r.
Qed.

(** X4: [set_config] touches one entry only: what is stored for any other
    pair of key and model stays as it was, and so do the model selections,
    the registered networks and the NEM dictionaries. *)
Theorem set_config_frame (w : World) (key key' : Z) (model model' : string)
    (config : option Config) :
  (key', model') <> (key, model) ->
  let w' := exec (set_config key model config) w in
  stored_lookup (manager w') key' model' = stored_lookup (manager w) key' model'
  /\ node_models (manager w') = node_models (manager w)
  /\ _emane_nets (manager w') = _emane_nets (manager w)
  /\ nems_to_ifaces (manager w') = nems_to_ifaces (manager w)
  /\ ifaces_to_nems (manager w') = ifaces_to_nems (manager w).
Proof.
  intros Hne w'. unfold w', exec.
  destruct (model_registry w !! model) as [cls|] eqn:Hreg.
  - rewrite (set_config_run w key model config cls Hreg). simpl.
    split; [|done]. unfold stored_lookup. simpl.
    destruct (decide (key' = key)) as [->|Hk].
    + rewrite lookup_insert_eq. simpl.
      rewrite lookup_insert_ne by congruence.
      by destruct (node_configs (manager w) !! key).
    + by rewrite lookup_insert_ne.
  - destruct (unknown_model_raises w key model false config Hreg)
      as (msg & _ & Hrun). by rewrite Hrun.
Qed.

(** X5: [set_config] is idempotent: doing the same update twice leaves the
    state the first update left. *)
Theorem set_config_idempotent (w : World) (key : Z) (model : string)
    (config : option Config) :
  exec (set_config key model config) (exec (set_config key model config) w)
  = exec (set_config key model config) w.
Proof.
  destruct (model_registry w !! model) as [cls|] eqn:Hreg.
  - pose proof (set_config_run w key model config cls Hreg) as Hrun.
    unfold exec at 2 3. rewrite Hrun. simpl.
    unfold exec. rewrite (set_config_run _ key model config cls) by done.
    simpl. unfold with_manager, set_node_configs. simpl. do 2 f_equal.
    rewrite insert_insert_eq. f_equal.
    rewrite lookup_insert_eq. simpl. rewrite insert_insert_eq. f_equal.
    unfold stored_lookup at 1. simpl. rewrite lookup_insert_eq. simpl.
    rewrite lookup_insert_eq. simpl.
    by rewrite (assoc_L (∪)), (idemp_L (∪)).
  - destruct (unknown_model_raises w key model false config Hreg)
      as (msg & _ & Hrun).
    unfold exec. rewrite Hrun. simpl. by rewrite Hrun.
Qed.

Lemma config_reset_run (w : World) (node_id : option Z) :
  config_reset node_id w
  = (Ok tt,
     match node_id with
     | None => with_manager w (set_node_configs (manager w) ∅ ∅)
     | Some node_id =>
         with_manager w
           (set_node_configs (manager w)
              (match node_configs (manager w) !! node_id with
               | Some _ => <[node_id := ∅]> (node_configs (manager w))
               | None => node_configs (manager w)
               end)
              (delete node_id (node_models (manager w))))
     end).
Proof. reflexivity. Qed.

(** X6: [config_reset()] without a node id forgets every stored
    configuration and every model selection: afterwards [get_config] finds
    nothing stored under any key, so that with [default] it returns the
    model's defaults. *)
Theorem config_reset_all (w : World) (key : Z) (model : string)
    (cls : EmaneModel) :
  model_registry w !! model = Some cls ->
  let w' := exec (config_reset None) w in
  node_models (manager w') = ∅
  /\ get_config key model false w' = (Ok None, w')
  /\ get_config key model true w' = (Ok (Some (default_values cls)), w').
Proof.
  intros Hreg w'. unfold w', exec. rewrite config_reset_run. simpl.
  split; [done|].
  split; (erewrite get_config_result; [|exact Hreg]);
    unfold stored_lookup; simpl; by rewrite lookup_empty.
Qed.

(** X7: [config_reset(node_id)] forgets what is stored under that key and
    the node's model selection, and nothing else: every other key, the keys
    of the node's interfaces among them, keeps its configurations, and every
    other node its model selection. *)
Theorem config_reset_node (w : World) (node_id : Z) :
  let w' := exec (config_reset (Some node_id)) w in
  (forall model, stored_lookup (manager w') node_id model = None)
  /\ node_models (manager w') !! node_id = None
  /\ (forall key model,
        key <> node_id ->
        stored_lookup (manager w') key model = stored_lookup (manager w) key model)
  /\ (forall other,
        other <> node_id ->
        node_models (manager w') !! other = node_models (manager w) !! other).
Proof.
  intros w'. unfold w', exec. rewrite config_reset_run. simpl.
  split; [|split; [|split]].
  - intros model. unfold stored_lookup. simpl.
    destruct (node_configs (manager w) !! node_id) eqn:Hn.
    + rewrite lookup_insert_eq. simpl. by rewrite lookup_empty.
    + by rewrite Hn.
  - by rewrite lookup_delete_eq.
  - intros key model Hne. unfold stored_lookup. simpl.
    destruct (node_configs (manager w) !! node_id); [|done].
    by rewrite lookup_insert_ne.
  - intros other Hne. by rewrite lookup_delete_ne.
Qed.


(** ** More on NEM ids *)

Lemma next_free_ge (fuel : nat) (nems : gmap Z iface_ref) (start : Z) :
  start <= next_free fuel nems start.
Proof.
  revert start. induction fuel as [|fuel IH]; intros start; simpl; [lia|].
  case_bool_decide; [|lia]. specialize (IH (start + 1)). lia.
Qed.

(** The three ways [next_nem_id] can end. *)
Lemma next_nem_id_cases (w : World) (iface : iface_ref) :
  let nem_id := next_free (size (nems_to_ifaces (manager w)))
                  (nems_to_ifaces (manager w))
                  (nem_id_start (options (session w))) in
  let w1 := with_manager w
              (set_nem_maps (manager w)
                 (<[nem_id := iface]> (nems_to_ifaces (manager w)))
                 (<[iface := nem_id]> (ifaces_to_nems (manager w)))) in
  (emane_nems_oserror (session w) = true ->
   next_nem_id iface w = (Ok nem_id, w1))
  /\ (forall node,
        emane_nems_oserror (session w) = false ->
        iface_node (ifaces w iface) = Some node ->
        next_nem_id iface w
        = (Ok nem_id,
           with_session w1
             (Session_append_nem (session w)
                (node_name (nodes w node) +:+ " " +:+ iface_name (ifaces w iface)
                 +:+ " " +:+ pretty nem_id +:+ newline))))
  /\ (emane_nems_oserror (session w) = false ->
      iface_node (ifaces w iface) = None ->
      next_nem_id iface w = (Raise AttributeError, w1)).
Proof.
  simpl. unfold next_nem_id, write_nem, bind, get_world, modify, attr_of. simpl.
  split; [|split].
  - by intros ->.
  - by intros node -> ->.
  - by intros -> ->.
Qed.

Lemma next_nem_id_result (w : World) (iface : iface_ref) (n : Z) :
  eval (next_nem_id iface) w = Ok n ->
  n = next_free (size (nems_to_ifaces (manager w)))
        (nems_to_ifaces (manager w)) (nem_id_start (options (session w))).
Proof.
  unfold eval, next_nem_id, write_nem, bind, get_world, modify, attr_of. simpl.
  destruct (emane_nems_oserror (session w)); simpl; [congruence|].
  destruct (iface_node (ifaces w iface)); simpl; [congruence|done].
Qed.

Lemma next_nem_id_options (w : World) (iface : iface_ref) :
  options (session (exec (next_nem_id iface) w)) = options (session w).
Proof.
  unfold exec, next_nem_id, write_nem, bind, get_world, modify, attr_of. simpl.
  destruct (emane_nems_oserror (session w)); simpl; [done|].
  by destruct (iface_node (ifaces w iface)).
Qed.

(** X8: two calls of [next_nem_id] in a row, for any interfaces, return
    strictly increasing ids. *)
Theorem next_nem_id_increasing (w : World) (iface1 iface2 : iface_ref)
    (n1 n2 : Z) :
  eval (next_nem_id iface1) w = Ok n1 ->
  eval (next_nem_id iface2) (exec (next_nem_id iface1) w) = Ok n2 ->
  n1 < n2.
Proof.
  intros H1 H2. apply next_nem_id_result in H1, H2.
  rewrite next_nem_id_options in H2. rewrite next_nem_id_manager in H2.
  simpl in H2. rewrite <- H1 in H2.
  set (start := nem_id_start (options (session w))) in *.
  set (nems := nems_to_ifaces (manager w)) in *.
  set (nems' := <[n1 := iface1]> nems) in *.
  assert (nems' !! n2 = None) as Hfree2 by (subst n2; apply next_free_spec).
  assert (start <= n2) as Hge by (subst n2; apply next_free_ge).
  destruct (decide (n2 = n1)) as [Heq|Hne].
  { rewrite Heq in Hfree2. unfold nems' in Hfree2.
    by rewrite lookup_insert_eq in Hfree2. }
  destruct (decide (n2 < n1)) as [Hlt|]; [|lia].
  assert (is_Some (nems !! n2)) as [i Hi].
  { apply (next_free_least (size nems) nems start). rewrite <- H1. lia. }
  unfold nems' in Hfree2. rewrite lookup_insert_ne in Hfree2 by done.
  congruence.
Qed.

(** X9: [next_nem_id] never takes an id away: every assignment made before
    is still there, every other interface keeps its entry, and the number of
    assigned ids grows by exactly one. *)
Theorem next_nem_id_keeps_assignments (w : World) (iface : iface_ref) :
  let w' := exec (next_nem_id iface) w in
  (forall n i, nems_to_ifaces (manager w) !! n = Some i ->
               nems_to_ifaces (manager w') !! n = Some i)
  /\ (forall i, i <> iface ->
                ifaces_to_nems (manager w') !! i = ifaces_to_nems (manager w) !! i)
  /\ size (nems_to_ifaces (manager w')) = S (size (nems_to_ifaces (manager w)))
  /\ _emane_nets (manager w') = _emane_nets (manager w).
Proof.
  intros w'. unfold w'. rewrite next_nem_id_manager. simpl.
  pose proof (next_free_spec (nems_to_ifaces (manager w))
                (nem_id_start (options (session w)))) as Hfree.
  split; [|split; [|split]].
  - intros n i Hn. rewrite lookup_insert_ne; [done|]. congruence.
  - intros i Hne. by rewrite lookup_insert_ne.
  - by apply map_size_insert_None.
  - done.
Qed.

(** X10: the NEM index file.  When the file can be opened and the interface
    has a node, [next_nem_id] appends exactly one line, node name, interface
    name and NEM id separated by blanks; when opening fails the call still
    returns the id with both dictionaries updated, and the file is as it
    was. *)
Theorem next_nem_id_index_file (w : World) (iface : iface_ref) :
  let nem_id := next_free (size (nems_to_ifaces (manager w)))
                  (nems_to_ifaces (manager w))
                  (nem_id_start (options (session w))) in
  let w' := exec (next_nem_id iface) w in
  (forall node,
     emane_nems_oserror (session w) = false ->
     iface_node (ifaces w iface) = Some node ->
     eval (next_nem_id iface) w = Ok nem_id
     /\ emane_nems (session w')
        = emane_nems (session w)
          ++ [node_name (nodes w node) +:+ " " +:+ iface_name (ifaces w iface)
              +:+ " " +:+ pretty nem_id +:+ newline])
  /\ (emane_nems_oserror (session w) = true ->
      eval (next_nem_id iface) w = Ok nem_id
      /\ emane_nems (session w') = emane_nems (session w)
      /\ nems_to_ifaces (manager w') !! nem_id = Some iface
      /\ ifaces_to_nems (manager w') !! iface = Some nem_id).
Proof.
  intros nem_id w'.
  destruct (next_nem_id_cases w iface) as (Herr & Hok & _).
  split.
  - intros node Hos Hnode. unfold w', eval, exec.
    by rewrite (Hok node Hos Hnode).
  - intros Hos. unfold w', eval, exec. rewrite (Herr Hos). simpl.
    by rewrite !lookup_insert_eq.
Qed.

Lemma py_int_negative (n : Z) : n < 0 -> py_int ("47" +:+ format_03 n) = None.
Proof.
  intros Hn. unfold format_03. by rewrite (proj2 (Z.ltb_lt n 0) Hn).
Qed.

(** X11: distinct NEM ids between 0 and 999 give distinct ports: two
    interfaces with such ids and the same port have the same id. *)
Theorem get_nem_port_injective (w : World) (iface1 iface2 : iface_ref)
    (n1 n2 : Z) :
  ifaces_to_nems (manager w) !! iface1 = Some n1 ->
  ifaces_to_nems (manager w) !! iface2 = Some n2 ->
  0 <= n1 <= 999 -> 0 <= n2 <= 999 ->
  eval (get_nem_port iface1) w = eval (get_nem_port iface2) w ->
  n1 = n2.
Proof.
  intros H1 H2 Hr1 Hr2. unfold eval, get_nem_port, bind, get_nem_id.
  rewrite H1, H2, (py_int_port n1 Hr1), (py_int_port n2 Hr2). simpl.
  intros [=]. lia.
Qed.

(** X12: [get_nem_port] raises [TypeError] for an interface without a NEM
    id and [ValueError] for one with a negative NEM id; in both cases
    nothing changes. *)
Theorem get_nem_port_errors (w : World) (iface : iface_ref) :
  (ifaces_to_nems (manager w) !! iface = None ->
   get_nem_port iface w = (Raise TypeError, w))
  /\ (forall n, ifaces_to_nems (manager w) !! iface = Some n -> n < 0 ->
                get_nem_port iface w = (Raise ValueError, w)).
Proof.
  unfold get_nem_port, bind, get_nem_id. split.
  - by intros ->.
  - intros n -> Hn. by rewrite (py_int_negative n Hn).
Qed.


(** ** Nodes and interfaces of the registered networks *)

Lemma elem_of_net_core_nodes (w : World) (emane_net : net_ref) (node : node_ref) :
  node ∈ net_core_nodes w emane_net
  <-> exists iface,
        iface ∈ net_get_ifaces (nets w emane_net)
        /\ iface_node (ifaces w iface) = Some node
        /\ is_CoreNode (nodes w node) = true.
Proof.
  unfold net_core_nodes. rewrite list_elem_of_In, in_flat_map. split.
  - intros (iface & Hin & Hn). exists iface.
    apply list_elem_of_In in Hin. split; [done|].
    destruct (iface_node (ifaces w iface)) as [node'|]; [|done].
    destruct (is_CoreNode (nodes w node')) eqn:Hc; [|done].
    apply list_elem_of_In, list_elem_of_singleton in Hn. by subst.
  - intros (iface & Hin & Hnode & Hc). exists iface.
    split; [by apply list_elem_of_In|]. rewrite Hnode, Hc. by left.
Qed.

(** X13: [getnodes] returns exactly the [CoreNode]s that some interface
    attached to a registered network belongs to, whether or not the network
    has a model; in particular it contains the [CoreNode] of every pair
    [get_ifaces] returns. *)
Theorem getnodes_members (w : World) :
  exists result,
    getnodes w = (Ok result, w)
    /\ (forall node,
          node ∈ result
          <-> exists emane_net iface,
                emane_net ∈ dict_values (_emane_nets (manager w))
                /\ iface ∈ net_get_ifaces (nets w emane_net)
                /\ iface_node (ifaces w iface) = Some node
                /\ is_CoreNode (nodes w node) = true)
    /\ (forall pairs emane_net iface node,
          eval get_ifaces w = Ok pairs ->
          (emane_net, iface) ∈ pairs ->
          iface_node (ifaces w iface) = Some node ->
          is_CoreNode (nodes w node) = true ->
          node ∈ result).
Proof.
  eexists. split; [reflexivity|].
  assert (forall node,
            node ∈ (list_to_set (flat_map (net_core_nodes w)
                      (dict_values (_emane_nets (manager w)))) : gset node_ref)
            <-> exists emane_net iface,
                  emane_net ∈ dict_values (_emane_nets (manager w))
                  /\ iface ∈ net_get_ifaces (nets w emane_net)
                  /\ iface_node (ifaces w iface) = Some node
                  /\ is_CoreNode (nodes w node) = true) as Hmem.
  { intros node. rewrite elem_of_list_to_set, list_elem_of_In, in_flat_map.
    split.
    - intros (emane_net & Hnet & Hin). apply list_elem_of_In in Hnet, Hin.
      apply elem_of_net_core_nodes in Hin as (iface & ? & ? & ?).
      by exists emane_net, iface.
    - intros (emane_net & iface & Hnet & Hin & Hnode & Hc).
      exists emane_net. split; [by apply list_elem_of_In|].
      apply list_elem_of_In, elem_of_net_core_nodes. by exists iface. }
  split; [exact Hmem|].
  intros pairs emane_net iface node Hrun Hin Hnode Hc.
  unfold eval in Hrun. rewrite get_ifaces_ok in Hrun. injection Hrun as <-.
  rewrite sorted_ifaces_perm, collect_ifaces_filter in Hin.
  apply list_elem_of_filter in Hin as [_ Hin].
  unfold candidate_pairs in Hin.
  apply list_elem_of_In, in_flat_map in Hin as (net' & Hnet & Hin).
  apply in_map_iff in Hin as (iface' & [= <- <-] & Hin).
  apply Hmem. exists net', iface'.
  by rewrite !list_elem_of_In.
Qed.

(** ** Lifecycle *)

(** X14: after [reset] the manager knows no interface: [get_ifaces] returns
    the empty list, [getnodes] the empty set, and [shutdown] returns at once
    without any command. *)
Theorem reset_then_nothing (w : World) :
  let w' := exec reset w in
  get_ifaces w' = (Ok [], w')
  /\ getnodes w' = (Ok ∅, w')
  /\ shutdown w' = (Ok tt, w').
Proof.
  intros w'. unfold w', exec. rewrite reset_spec. simpl.
  split; [|split]; reflexivity.
Qed.


Lemma check_node_model_run (w : World) (k : Z) (r : net_ref) :
  check_node_model (k, r) w
  = match wireless_model (nets w r) with
    | Some _ => (Ok tt, w)
    | None =>
        match node_models (manager w) !! k with
        | None => (Raise ValueError, w)
        | Some name =>
            if bool_decide (name = "") then (Raise ValueError, w)
            else
              match model_registry w !! name with
              | Some cls =>
                  (Ok tt, with_nets w
                            (<[r := EmaneNet_setmodel (nets w r) cls]> (nets w)))
              | None =>
                  (Raise (CoreError ("emane model(" +:+ name +:+ ") does not exist")), w)
              end
        end
    end.
Proof.
  unfold check_node_model. erewrite bind_ok; [|reflexivity].
  destruct (wireless_model (nets w r)); [done|].
  destruct (node_models (manager w) !! k) as [name|]; [|done].
  case_bool_decide; [done|].
  destruct (model_registry w !! name) as [cls|] eqn:Hreg.
  - erewrite bind_ok; [|by apply get_config_result].
    erewrite bind_ok; [|unfold get_model; by rewrite Hreg]. done.
  - erewrite bind_raise; [done|]. unfold get_config.
    erewrite bind_raise; [done|]. unfold get_model. by rewrite Hreg.
Qed.

Lemma models_added_refl (visited : list net_ref) (w : World) :
  models_added visited w w.
Proof. repeat split. intros r. by left. Qed.

(** A step of the loop either raises and changes nothing, or goes on in a
    state where the network has a model. *)
Lemma check_node_model_step (visited : list net_ref) (w0 w : World)
    (k : Z) (r : net_ref) :
  models_added visited w0 w ->
  (exists e, check_node_model (k, r) w = (Raise e, w))
  \/ (exists w',
        check_node_model (k, r) w = (Ok tt, w')
        /\ models_added (r :: visited) w0 w'
        /\ is_Some (wireless_model (nets w' r))
        /\ (forall r', is_Some (wireless_model (nets w r')) ->
                       is_Some (wireless_model (nets w' r')))).
Proof.
  intros (Hm & Hs & Hi & Hn & Hreg & Hl & Hnets).
  rewrite check_node_model_run.
  destruct (wireless_model (nets w r)) as [wm|] eqn:Hwm.
  { right. exists w. split; [done|]. split; [|by rewrite Hwm].
    repeat split; try done. intros r'.
    destruct (Hnets r') as [?|(? & ? & ?)]; [by left|right].
    split; [by apply list_elem_of_further|done]. }
  destruct (node_models (manager w) !! k) as [name|]; [|left; by eexists].
  case_bool_decide; [left; by eexists|].
  destruct (model_registry w !! name) as [cls|]; [|left; by eexists].
  right. eexists. split; [reflexivity|].
  assert (nets w r = nets w0 r) as Hr.
  { destruct (Hnets r) as [?|(_ & _ & cls' & Hset)]; [done|].
    rewrite Hset in Hwm. done. }
  split; [|split].
  - repeat split; try done. intros r'. simpl.
    destruct (decide (r = r')) as [<-|Hne].
    + rewrite fn_lookup_insert. right.
      split; [apply list_elem_of_here|]. split; [by rewrite <- Hr|].
      exists cls. by rewrite Hr.
    + rewrite fn_lookup_insert_ne by done.
      destruct (Hnets r') as [?|(? & ? & ?)]; [by left|right].
      split; [by apply list_elem_of_further|done].
  - simpl. by rewrite fn_lookup_insert.
  - intros r' Hsome. simpl. destruct (decide (r = r')) as [<-|Hne].
    + by rewrite fn_lookup_insert.
    + by rewrite fn_lookup_insert_ne.
Qed.

Lemma models_added_weaken (v1 v2 : list net_ref) (w0 w : World) :
  (forall r, r ∈ v1 -> r ∈ v2) -> models_added v1 w0 w -> models_added v2 w0 w.
Proof.
  intros Hsub (Hm & Hs & Hi & Hn & Hreg & Hl & Hnets).
  repeat split; try done. intros r.
  destruct (Hnets r) as [?|(? & ? & ?)]; [by left|right].
  split; [by apply Hsub|done].
Qed.

Lemma check_node_models_loop (l : list (Z * net_ref)) :
  forall (visited : list net_ref) (w0 w : World),
  models_added visited w0 w ->
  (forall k r, (k, r) ∈ l -> wireless_model (nets w0 r) = None ->
     exists name cls,
       node_models (manager w0) !! k = Some name /\ name <> ""
       /\ model_registry w0 !! name = Some cls) ->
  exists w',
    forM_ check_node_model l w = (Ok tt, w')
    /\ models_added (l.*2 ++ visited) w0 w'
    /\ (forall r', is_Some (wireless_model (nets w r')) ->
                   is_Some (wireless_model (nets w' r')))
    /\ (forall k r, (k, r) ∈ l -> is_Some (wireless_model (nets w' r))).
Proof.
  induction l as [|[k r] l IH]; intros visited w0 w Hrel Hcfg.
  - exists w. split; [done|]. split; [done|]. split; [done|].
    intros k r Hin. by apply not_elem_of_nil in Hin.
  - cbn [forM_].
    assert (exists w1,
              check_node_model (k, r) w = (Ok tt, w1)
              /\ models_added (r :: visited) w0 w1
              /\ is_Some (wireless_model (nets w1 r))
              /\ (forall r', is_Some (wireless_model (nets w r')) ->
                             is_Some (wireless_model (nets w1 r'))))
      as (w1 & Hrun & Hrel1 & Hr & Hkeep1).
    { destruct (check_node_model_step visited w0 w k r Hrel)
        as [[e Hraise]|Hok]; [|exact Hok].
      exfalso. rewrite check_node_model_run in Hraise.
      destruct Hrel as (Hm & _ & _ & _ & Hreg & _ & Hnets).
      destruct (wireless_model (nets w r)) eqn:Hwm; [done|].
      assert (wireless_model (nets w0 r) = None) as Hwm0.
      { destruct (Hnets r) as [<-|(_ & ? & _)]; done. }
      destruct (Hcfg k r (list_elem_of_here _ _) Hwm0)
        as (name & cls & Hname & Hne & Hcls).
      rewrite Hm, Hname, Hreg, Hcls in Hraise.
      by rewrite bool_decide_eq_false_2 in Hraise. }
    destruct (IH (r :: visited) w0 w1 Hrel1) as (w' & Hloop & Hrel' & Hkeep & Hall).
    { intros k' r' Hin. apply Hcfg. by apply list_elem_of_further. }
    exists w'. erewrite bind_ok; [|exact Hrun].
    split; [exact Hloop|]. split; [|split].
    + eapply models_added_weaken; [|exact Hrel'].
      intros x. simpl. rewrite !elem_of_app, !elem_of_cons, elem_of_app.
      intros [?|[?|?]]; [right; by left|by left|right; by right].
    + intros r' Hsome. by apply Hkeep, Hkeep1.
    + intros k' r' Hin. apply elem_of_cons in Hin as [[= -> ->]|Hin].
      * by apply Hkeep.
      * by apply (Hall k').
Qed.

(** X15: when every registered network without a model has, under its id,
    a non-empty model name in [node_models] that is registered,
    [check_node_models] raises nothing and afterwards every registered
    network has a model; a network that had one keeps it, no network changes
    its id, name or interfaces, and nothing else changes. *)
Theorem check_node_models_success (w : World) :
  (forall k r, (k, r) ∈ _emane_nets (manager w) ->
     wireless_model (nets w r) = None ->
     exists name cls,
       node_models (manager w) !! k = Some name /\ name <> ""
       /\ model_registry w !! name = Some cls) ->
  exists w',
    check_node_models w = (Ok tt, w')
    /\ (forall k r, (k, r) ∈ _emane_nets (manager w) ->
                    is_Some (wireless_model (nets w' r)))
    /\ (forall r, is_Some (wireless_model (nets w r)) -> nets w' r = nets w r)
    /\ (forall r, net_id (nets w' r) = net_id (nets w r)
                  /\ net_name (nets w' r) = net_name (nets w r)
                  /\ net_get_ifaces (nets w' r) = net_get_ifaces (nets w r))
    /\ manager w' = manager w /\ session w' = session w
    /\ ifaces w' = ifaces w /\ nodes w' = nodes w /\ log w' = log w.
Proof.
  intros Hcfg.
  destruct (check_node_models_loop (_emane_nets (manager w)) [] w w
              (models_added_refl [] w) Hcfg)
    as (w' & Hloop & (Hm & Hs & Hi & Hn & _ & Hl & Hnets) & _ & Hall).
  exists w'. unfold check_node_models. erewrite bind_ok; [|reflexivity].
  split; [exact Hloop|]. split; [exact Hall|].
  split; [|split; [|done]].
  - intros r [wm Hwm]. destruct (Hnets r) as [?|(_ & Hnone & _)]; [done|].
    congruence.
  - intros r. destruct (Hnets r) as [->|(_ & _ & cls & ->)]; done.
Qed.


Lemma check_node_models_loop_raise (k : Z) (r : net_ref)
    (after : list (Z * net_ref)) (before : list (Z * net_ref)) :
  forall (visited : list net_ref) (w0 w : World),
  models_added visited w0 w ->
  r ∉ visited -> r ∉ before.*2 ->
  wireless_model (nets w0 r) = None ->
  (node_models (manager w0) !! k = None
   \/ node_models (manager w0) !! k = Some "") ->
  exists e w',
    forM_ check_node_model (before ++ (k, r) :: after) w = (Raise e, w').
Proof.
  induction before as [|[k' r'] before IH];
    intros visited w0 w Hrel Hvis Hbefore Hwm Hname.
  - cbn [app forM_]. exists ValueError, w. apply bind_raise.
    rewrite check_node_model_run.
    destruct Hrel as (Hm & _ & _ & _ & _ & _ & Hnets).
    destruct (Hnets r) as [Hr|(Hin & _)]; [|done].
    rewrite Hr, Hwm, Hm. by destruct Hname as [->| ->].
  - simpl in Hbefore. apply not_elem_of_cons in Hbefore as [Hne Hbefore].
    cbn [app forM_].
    destruct (check_node_model_step visited w0 w k' r' Hrel)
      as [[e Hraise]|(w1 & Hrun & Hrel1 & _)].
    + exists e, w. by apply bind_raise.
    + erewrite bind_ok; [|exact Hrun].
      apply (IH (r' :: visited) w0 w1); try done.
      by apply not_elem_of_cons.
Qed.

(** X16: [check_node_models] raises when a registered network without a
    model, met for the first time in the loop, has no model name (or an
    empty one) under its id in [node_models]. *)
Theorem check_node_models_missing_model (w : World) (k : Z) (r : net_ref)
    (before after : list (Z * net_ref)) :
  _emane_nets (manager w) = before ++ (k, r) :: after ->
  r ∉ before.*2 ->
  wireless_model (nets w r) = None ->
  (node_models (manager w) !! k = None
   \/ node_models (manager w) !! k = Some "") ->
  exists e, eval check_node_models w = Raise e.
Proof.
  intros Hnets Hbefore Hwm Hname.
  destruct (check_node_models_loop_raise k r after before [] w w
              (models_added_refl [] w) (not_elem_of_nil r) Hbefore Hwm Hname)
    as (e & w' & Hrun).
  exists e. unfold eval, check_node_models.
  erewrite bind_ok; [|reflexivity]. by rewrite Hnets, Hrun.
Qed.


Lemma add_node_run (w : World) (r : net_ref) :
  add_node r w
  = if dict_contains (net_id (nets w r)) (_emane_nets (manager w))
    then (Raise (CoreError ("duplicate emane network("
                            +:+ pretty (net_id (nets w r)) +:+ "): "
                            +:+ net_name (nets w r))), w)
    else (Ok tt, with_manager w
                   (set_emane_nets (manager w)
                      (_emane_nets (manager w) ++ [(net_id (nets w r), r)]))).
Proof.
  unfold add_node. erewrite bind_ok; [|reflexivity].
  destruct (dict_contains _ _) eqn:Hc; [done|].
  unfold modify, dict_set. by rewrite Hc.
Qed.

Lemma forM_add_node_ok (l : list net_ref) :
  forall w w1,
  forM_ add_node l w = (Ok tt, w1) ->
  w1 = with_manager w
         (set_emane_nets (manager w)
            (_emane_nets (manager w) ++ map (fun r => (net_id (nets w r), r)) l)).
Proof.
  induction l as [|r l IH]; intros w w1 Hrun.
  - injection Hrun as <-. simpl. rewrite app_nil_r. by destruct w as [[]].
  - cbn [forM_] in Hrun. unfold bind in Hrun. rewrite add_node_run in Hrun.
    destruct (dict_contains _ _); [done|].
    apply IH in Hrun. rewrite Hrun. simpl.
    unfold with_manager, set_emane_nets. simpl. by rewrite <- app_assoc.
Qed.

Lemma check_node_models_loop_ok (l : list (Z * net_ref)) :
  forall (visited : list net_ref) (w0 w w' : World),
  models_added visited w0 w ->
  forM_ check_node_model l w = (Ok tt, w') ->
  models_added (l.*2 ++ visited) w0 w'
  /\ (forall r', is_Some (wireless_model (nets w r')) ->
                 is_Some (wireless_model (nets w' r')))
  /\ (forall k r, (k, r) ∈ l -> is_Some (wireless_model (nets w' r))).
Proof.
  induction l as [|[k r] l IH]; intros visited w0 w w' Hrel Hrun.
  - injection Hrun as <-. split; [done|]. split; [done|].
    intros k r Hin. by apply not_elem_of_nil in Hin.
  - cbn [forM_] in Hrun.
    destruct (check_node_model_step visited w0 w k r Hrel)
      as [[e Hraise]|(w1 & Hstep & Hrel1 & Hr & Hkeep1)].
    { erewrite bind_raise in Hrun; [done|exact Hraise]. }
    erewrite bind_ok in Hrun; [|exact Hstep].
    destruct (IH (r :: visited) w0 w1 w' Hrel1 Hrun) as (Hrel' & Hkeep & Hall).
    split; [|split].
    + eapply models_added_weaken; [|exact Hrel'].
      intros x. simpl. rewrite !elem_of_app, !elem_of_cons, elem_of_app.
      intros [?|[?|?]]; [right; by left|by left|right; by right].
    + intros r' Hsome. by apply Hkeep, Hkeep1.
    + intros k' r' Hin. apply elem_of_cons in Hin as [[= -> ->]|Hin].
      * by apply Hkeep.
      * by apply (Hall k').
Qed.

Lemma check_node_models_unfold (w : World) :
  check_node_models w = forM_ check_node_model (_emane_nets (manager w)) w.
Proof. unfold check_node_models. by erewrite bind_ok. Qed.

(** What holds when [setup] returns. *)
Lemma setup_returns (session_emane_nets : list net_ref) (LocationEvent : bool)
    (w : World) (state : EmaneState) :
  eval (setup session_emane_nets LocationEvent) w = Ok state ->
  let w' := exec (setup session_emane_nets LocationEvent) w in
  _emane_nets (manager w')
  = _emane_nets (manager w)
    ++ map (fun r => (net_id (nets w r), r)) session_emane_nets
  /\ (forall r, net_id (nets w' r) = net_id (nets w r))
  /\ match state with
     | SUCCESS =>
         LocationEvent = true
         /\ _emane_nets (manager w') <> []
         /\ forall k r, (k, r) ∈ _emane_nets (manager w') ->
                        is_Some (wireless_model (nets w' r))
     | NOT_NEEDED => _emane_nets (manager w') = [] /\ session_emane_nets = []
     | NOT_READY => False
     end.
Proof.
  unfold eval, exec, setup. intros Hrun.
  destruct (forM_ add_node session_emane_nets w) as [[[]|e] w1] eqn:Hadd;
    [|by erewrite bind_raise in Hrun].
  erewrite bind_ok in Hrun; [|exact Hadd]. erewrite bind_ok; [|exact Hadd].
  erewrite bind_ok in Hrun; [|reflexivity]. erewrite bind_ok; [|reflexivity].
  apply forM_add_node_ok in Hadd.
  assert (_emane_nets (manager w1)
          = _emane_nets (manager w)
            ++ map (fun r => (net_id (nets w r), r)) session_emane_nets) as Hnets
    by (by rewrite Hadd).
  assert (nets w1 = nets w) as Hheap by (by rewrite Hadd).
  destruct (_emane_nets (manager w1)) as [|entry d] eqn:Hd.
  - injection Hrun as <-. simpl. rewrite Hd, Hheap. split; [done|].
    split; [done|]. split; [done|].
    symmetry in Hnets. apply app_eq_nil in Hnets as [_ Hmap].
    by apply map_eq_nil in Hmap.
  - destruct LocationEvent; simpl in *; [|done].
    destruct (check_node_models w1) as [[[]|e] w2] eqn:Hloop;
      [|by erewrite bind_raise in Hrun].
    erewrite bind_ok in Hrun; [|exact Hloop]. erewrite bind_ok; [|exact Hloop].
    injection Hrun as <-. simpl.
    rewrite check_node_models_unfold, Hd in Hloop.
    destruct (check_node_models_loop_ok (entry :: d) [] w1 w1 w2
                (models_added_refl [] w1) Hloop)
      as ((Hm & _ & _ & _ & _ & _ & Hn2) & _ & Hall).
    rewrite Hm, Hd. split; [done|]. split; [|by repeat split].
    intros r. rewrite <- Hheap.
    by destruct (Hn2 r) as [->|(_ & _ & cls & ->)].
Qed.

(** X17: what the result of [setup] tells.  [SUCCESS] is returned only with
    the bindings present and at least one network registered, and then every
    registered network has a model; [NOT_NEEDED] only when no network is
    registered; [NOT_READY] never.  Whenever [setup] returns, the networks of
    the session were appended to the registered ones in session order. *)
Theorem setup_result (session_emane_nets : list net_ref) (LocationEvent : bool)
    (w : World) (state : EmaneState) :
  eval (setup session_emane_nets LocationEvent) w = Ok state ->
  let w' := exec (setup session_emane_nets LocationEvent) w in
  _emane_nets (manager w')
  = _emane_nets (manager w)
    ++ map (fun r => (net_id (nets w r), r)) session_emane_nets
  /\ match state with
     | SUCCESS =>
         LocationEvent = true
         /\ _emane_nets (manager w') <> []
         /\ forall k r, (k, r) ∈ _emane_nets (manager w') ->
                        is_Some (wireless_model (nets w' r))
     | NOT_NEEDED => _emane_nets (manager w') = [] /\ session_emane_nets = []
     | NOT_READY => False
     end.
Proof.
  intros Hrun w'.
  destruct (setup_returns _ _ _ _ Hrun) as (Hnets & _ & Hstate). by split.
Qed.

(** X18: [setup] is not to be repeated without [reset]: after a [setup]
    that returned with an EMANE network in the session, a second [setup]
    raises the duplicate-network [CoreError] and changes nothing. *)
Theorem setup_twice_raises (session_emane_nets : list net_ref)
    (LocationEvent : bool) (w : World) (state : EmaneState) :
  session_emane_nets <> [] ->
  eval (setup session_emane_nets LocationEvent) w = Ok state ->
  let w' := exec (setup session_emane_nets LocationEvent) w in
  exists msg,
    setup session_emane_nets LocationEvent w' = (Raise (CoreError msg), w').
Proof.
  intros Hne Hrun w'.
  destruct (setup_returns _ _ _ _ Hrun) as (Hnets & Hid & _). fold w' in Hnets, Hid.
  destruct session_emane_nets as [|r rest]; [done|].
  eexists. unfold setup. cbn [forM_].
  apply bind_raise, bind_raise. rewrite add_node_run.
  rewrite Hnets, Hid. simpl.
  replace (dict_contains _ _) with true; [reflexivity|].
  symmetry. unfold dict_contains. apply bool_decide_eq_true_2.
  rewrite fmap_app. apply elem_of_app. right. simpl. apply list_elem_of_here.
Qed.

(** ** Positions *)

(** X19: for an interface with a NEM id and a node, [get_nem_position]
    returns the NEM id, the longitude and latitude of the node's position and
    the altitude rounded to an integer, where the altitude is the one stored
    on the node when there is one and the converted one otherwise; it stores
    longitude, latitude and that altitude on the node, leaves [(x, y, z)]
    and every other node alone, and a second call returns the same entry. *)
Theorem get_nem_position_entry (w : World) (iface : iface_ref) (n : Z)
    (node : node_ref) (lat lon alt : Q) :
  ifaces_to_nems (manager w) !! iface = Some n ->
  iface_node (ifaces w iface) = Some node ->
  let p := position (nodes w node) in
  getgeo (pos_x p) (pos_y p) (pos_z p) = (lat, lon, alt) ->
  let alt' := default alt (pos_alt p) in
  let w' := exec (get_nem_position getgeo iface) w in
  eval (get_nem_position getgeo iface) w = Ok (Some (n, lon, lat, py_round alt'))
  /\ position (nodes w' node) = Position_set_geo p lon lat alt'
  /\ (forall other, other <> node -> nodes w' other = nodes w other)
  /\ eval (get_nem_position getgeo iface) w'
     = Ok (Some (n, lon, lat, py_round alt')).
Proof.
  intros Hnem Hnode p Hgeo alt' w'.
  assert (forall w0 : World,
            ifaces_to_nems (manager w0) !! iface = Some n ->
            iface_node (ifaces w0 iface) = Some node ->
            forall a,
            getgeo (pos_x (position (nodes w0 node)))
                   (pos_y (position (nodes w0 node)))
                   (pos_z (position (nodes w0 node))) = (lat, lon, a) ->
            get_nem_position getgeo iface w0
            = (Ok (Some (n, lon, lat,
                         py_round (default a (pos_alt (position (nodes w0 node)))))),
               with_nodes w0
                 (<[node := Node_set_position (nodes w0 node)
                              (Position_set_geo (position (nodes w0 node)) lon lat
                                 (default a (pos_alt (position (nodes w0 node)))))]>
                    (nodes w0)))) as Hrun.
  { intros w0 H1 H2 a H3. unfold get_nem_position, get_nem_id.
    erewrite bind_ok; [|reflexivity]. rewrite H1.
    erewrite bind_ok; [|reflexivity]. rewrite H2.
    erewrite bind_ok; [|reflexivity]. rewrite H3.
    by destruct (pos_alt (position (nodes w0 node))). }
  pose proof (Hrun w Hnem Hnode alt Hgeo) as Hfirst.
  fold p alt' in Hfirst.
  unfold w', eval, exec. rewrite Hfirst. simpl.
  split; [done|]. rewrite fn_lookup_insert. simpl.
  split; [done|]. split; [intros other Hne; by rewrite fn_lookup_insert_ne|].
  erewrite Hrun; [|done|done|simpl; rewrite fn_lookup_insert; exact Hgeo].
  simpl. by rewrite fn_lookup_insert.
Qed.

(** X20: [set_nem_position] publishes nothing, and raises nothing, for an
    interface without a NEM id; for an interface with a NEM id and a node it
    publishes exactly one location, the entry [get_nem_position] gives. *)
Theorem set_nem_position_publishes (w : World) (iface : iface_ref) :
  (ifaces_to_nems (manager w) !! iface = None ->
   set_nem_position getgeo iface w = (Ok tt, w))
  /\ (forall n node,
        ifaces_to_nems (manager w) !! iface = Some n ->
        iface_node (ifaces w iface) = Some node ->
        exists lon lat alt,
          eval (get_nem_position getgeo iface) w = Ok (Some (n, lon, lat, alt))
          /\ eval (set_nem_position getgeo iface) w = Ok tt
          /\ log (exec (set_nem_position getgeo iface) w)
             = log w ++ [PublishLocation n lon lat alt]).
Proof.
  split.
  - intros Hnem. unfold set_nem_position.
    erewrite bind_ok; [|by apply get_nem_position_unknown]. done.
  - intros n node Hnem Hnode.
    destruct (get_nem_position_known getgeo w iface n node Hnem Hnode)
      as ([[[n' lon] lat] alt] & w1 & Hrun & Hn & _ & _ & Hlog).
    unfold entry_nem in Hn. simpl in Hn. subst n'.
    exists lon, lat, alt. unfold eval, exec, set_nem_position.
    rewrite Hrun. erewrite bind_ok; [|exact Hrun]. simpl.
    by rewrite Hlog.
Qed.

(** X21: a batch of inbound events in which every event lacks one of
    latitude, longitude and altitude, or names a NEM id without an
    interface, is dropped whole: [handlelocationevent] raises nothing and
    changes nothing. *)
Theorem handlelocationevent_drops (w : World)
    (events : list (Z * gmap string Q)) :
  Forall (fun event =>
            event.2 !! "latitude" = None \/ event.2 !! "longitude" = None
            \/ event.2 !! "altitude" = None
            \/ nems_to_ifaces (manager w) !! event.1 = None) events ->
  handlelocationevent getxyz events w = (Ok tt, w).
Proof.
  induction 1 as [|[nem attrs] events Hdrop _ IH]; [done|].
  cbn [handlelocationevent]. simpl in Hdrop.
  destruct (attrs !! "latitude") as [lat|]; [|done].
  destruct (attrs !! "longitude") as [lon|]; [|done].
  destruct (attrs !! "altitude") as [alt|]; [|done].
  destruct Hdrop as [?|[?|[?|Hnem]]]; try done.
  erewrite bind_ok; [exact IH|].
  unfold handlelocationeventtoxyz, get_iface.
  erewrite bind_ok; [|reflexivity]. by rewrite Hnem.
Qed.


(** ** More on shutdown *)

Lemma shutdown_iface_run (w : World) (iface : iface_ref) (node : node_ref) :
  iface_node (ifaces w iface) = Some node ->
  shutdown_iface iface w
  = (Ok tt,
     if node_up (nodes w node)
     then with_ifaces (emit w (iface_shutdown_events w iface))
            (<[iface := Iface_set_poshook (ifaces w iface) None]> (ifaces w))
     else w).
Proof.
  intros Hnode. unfold shutdown_iface, iface_shutdown_events.
  erewrite bind_ok; [|reflexivity]. rewrite Hnode.
  erewrite bind_ok; [|reflexivity].
  destruct (node_up (nodes w node)); simpl; [|done].
  destruct (is_CoreNode (nodes w node)); unfold bind, modify; simpl; [|done].
  unfold with_ifaces, emit. simpl. by rewrite <- app_assoc.
Qed.

Lemma forM_shutdown_hooks (w0 : World) (l : list (net_ref * iface_ref)) :
  Forall (fun x => is_Some (iface_node (ifaces w0 x.2))) l ->
  forall (cleared : list iface_ref) (w : World),
  same_but_hooks w0 w ->
  hooks_cleared cleared w0 w ->
  hooks_cleared (filter (fun i => iface_up w0 i = true) l.*2 ++ cleared) w0
    (exec (forM_ (fun x => shutdown_iface (snd x)) l) w).
Proof.
  induction 1 as [|x l [node Hnode] _ IH]; intros cleared w Hs Hc; [done|].
  destruct (shutdown_iface_spec w0 w x.2 Hs (ex_intro _ node Hnode))
    as (w1 & Hrun & Hs1 & _).
  unfold exec. cbn [forM_]. erewrite bind_ok; [|exact Hrun].
  destruct (same_but_hooks_iface w0 w x.2 Hs) as (Hin & _).
  pose proof Hs as (_ & _ & Hn & _).
  rewrite Hnode in Hin. rewrite (shutdown_iface_run w x.2 node Hin) in Hrun.
  rewrite Hn in Hrun. injection Hrun as Hw1.
  cbn [fmap list_fmap]. rewrite filter_cons.
  assert (iface_up w0 x.2 = node_up (nodes w0 node)) as Hupeq
    by (unfold iface_up; by rewrite Hnode).
  destruct (node_up (nodes w0 node)) eqn:Hup.
  - rewrite decide_True by done.
    assert (hooks_cleared (x.2 :: cleared) w0 w1) as Hc1.
    { intros i. rewrite <- Hw1. simpl. destruct (decide (x.2 = i)) as [<-|Hne].
      - rewrite fn_lookup_insert, bool_decide_eq_true_2 by apply list_elem_of_here.
        rewrite (Hc x.2). by case_bool_decide.
      - rewrite fn_lookup_insert_ne by done. rewrite (Hc i).
        rewrite (bool_decide_ext (i ∈ cleared) (i ∈ x.2 :: cleared)); [done|].
        rewrite elem_of_cons. split; [by right|]. by intros [?|?]. }
    specialize (IH (x.2 :: cleared) w1 Hs1 Hc1). unfold exec in IH.
    intros i. rewrite (IH i).
    rewrite (bool_decide_ext
               (i ∈ filter (fun i => iface_up w0 i = true) l.*2 ++ x.2 :: cleared)
               (i ∈ x.2 :: filter (fun i => iface_up w0 i = true) l.*2 ++ cleared));
      [done|].
    rewrite !elem_of_app, !elem_of_cons, elem_of_app.
    split; [intros [?|[?|?]]|intros [?|[?|?]]]; auto.
  - rewrite decide_False by (by rewrite Hupeq). subst w1. by apply IH.
Qed.

(** X22: [shutdown] removes the position hook of exactly the interfaces
    [get_ifaces] returns whose node is up; every other interface, and every
    other attribute of those, is as before, and so are the manager's
    dictionaries, the nodes, the networks and the session. *)
Theorem shutdown_clears_hooks (w : World) (pairs : list (net_ref * iface_ref)) :
  eval get_ifaces w = Ok pairs ->
  let w' := exec shutdown w in
  (forall i,
     ifaces w' i
     = if bool_decide (i ∈ pairs.*2 /\ iface_up w i = true)
       then Iface_set_poshook (ifaces w i) None
       else ifaces w i)
  /\ manager w' = manager w /\ nodes w' = nodes w /\ nets w' = nets w
  /\ session w' = session w.
Proof.
  intros Hpairs w'. unfold eval in Hpairs. rewrite get_ifaces_ok in Hpairs.
  injection Hpairs as <-.
  destruct (shutdown_spec w w (same_but_hooks_refl w)) as (w1 & Hrun & Hs & _).
  assert (w' = w1) as -> by (unfold w', exec; by rewrite Hrun).
  destruct Hs as (Hm & Hse & Hn & Hnets & _ & _).
  split; [|done].
  unfold shutdown in Hrun. erewrite bind_ok in Hrun; [|reflexivity].
  destruct (_emane_nets (manager w)) as [|p d] eqn:Hd.
  { injection Hrun as <-. intros i. case_bool_decide as Hi; [|done].
    destruct Hi as [Hi _]. unfold sorted_ifaces, collect_ifaces in Hi.
    rewrite Hd in Hi. simpl in Hi. by apply not_elem_of_nil in Hi. }
  unfold links_enabled in Hrun. erewrite bind_ok in Hrun; [|reflexivity].
  set (le := bool_decide (link_enabled (options (session w)) = 1)) in Hrun.
  set (w0 := if le then emit w [LinkMonitorStop] else w).
  assert (same_but_hooks w w0) as Hs0 by (unfold w0; by destruct le).
  assert (hooks_cleared [] w w0) as Hc0 by (intros i; unfold w0; by destruct le).
  erewrite (bind_ok _ _ w w0 tt) in Hrun; [|by unfold w0; destruct le].
  erewrite bind_ok in Hrun; [|apply get_ifaces_ok].
  rewrite (same_but_hooks_sorted w w0 Hs0) in Hrun.
  pose proof (forM_shutdown_hooks w (sorted_ifaces w) (sorted_ifaces_node w)
                [] w0 Hs0 Hc0) as Hc.
  destruct (forM_shutdown_spec w (sorted_ifaces w) (sorted_ifaces_node w) w0 Hs0)
    as (w2 & Hloop & _).
  unfold exec in Hc. rewrite Hloop in Hc. simpl in Hc.
  erewrite bind_ok in Hrun; [|exact Hloop].
  injection Hrun as <-. intros i. simpl. rewrite (Hc i).
  rewrite (bool_decide_ext
             (i ∈ filter (fun i => iface_up w i = true) (sorted_ifaces w).*2 ++ [])
             (i ∈ (sorted_ifaces w).*2 /\ iface_up w i = true)); [done|].
  rewrite app_nil_r, list_elem_of_filter. by split; intros [? ?].
Qed.

Lemma shutdown_events_cmd (w : World) (e : Event) :
  e ∈ shutdown_events w ->
  e = LinkMonitorStop \/ e = EventManagerShutdown
  \/ exists x, x ∈ sorted_ifaces w /\ e ∈ iface_shutdown_events w x.2.
Proof.
  unfold shutdown_events. destruct (_emane_nets (manager w)).
  { intros Hin. by apply not_elem_of_nil in Hin. }
  rewrite !elem_of_app. intros [Hin|[Hin|Hin]].
  - left. case_bool_decide.
    + by apply list_elem_of_singleton in Hin.
    + by apply not_elem_of_nil in Hin.
  - right. right. apply list_elem_of_In, in_flat_map in Hin as (x & Hx & Hin).
    exists x. by rewrite !list_elem_of_In.
  - right. left. by apply list_elem_of_singleton in Hin.
Qed.

(** X23: every kill command of [shutdown] goes to a node that is up and
    names an interface on that node that [get_ifaces] returns: through the
    node itself only when it is a [CoreNode], on the host only when it is
    not. *)
Theorem shutdown_kills_up_nodes (w : World) (node : node_ref) (cmd : string) :
  exists issued pairs,
    log (exec shutdown w) = log w ++ issued
    /\ eval get_ifaces w = Ok pairs
    /\ (NodeCmd node cmd ∈ issued ->
        node_up (nodes w node) = true /\ is_CoreNode (nodes w node) = true
        /\ exists emane_net iface,
             (emane_net, iface) ∈ pairs
             /\ iface_node (ifaces w iface) = Some node
             /\ cmd = kill_cmd (iface_name (ifaces w iface)))
    /\ (HostCmd node cmd ∈ issued ->
        node_up (nodes w node) = true /\ is_CoreNode (nodes w node) = false
        /\ exists emane_net iface,
             (emane_net, iface) ∈ pairs
             /\ iface_node (ifaces w iface) = Some node
             /\ cmd = kill_cmd (iface_name (ifaces w iface))).
Proof.
  destruct (shutdown_spec w w (same_but_hooks_refl w)) as (w1 & Hrun & _ & Hlog).
  exists (shutdown_events w), (sorted_ifaces w).
  split; [by unfold exec; rewrite Hrun|].
  split; [by unfold eval; rewrite get_ifaces_ok|].
  split; intros Hin;
    apply shutdown_events_cmd in Hin as [?|[?|([net iface] & Hx & Hin)]];
    try done; unfold iface_shutdown_events in Hin; simpl in Hin;
    destruct (iface_node (ifaces w iface)) as [node'|] eqn:Hnode;
    try (by apply not_elem_of_nil in Hin);
    destruct (node_up (nodes w node')) eqn:Hup;
    try (by apply not_elem_of_nil in Hin);
    destruct (is_CoreNode (nodes w node')) eqn:Hcore;
    repeat (apply elem_of_cons in Hin as [Hin|Hin]; try done);
    try (by apply not_elem_of_nil in Hin);
    injection Hin as -> ->; (split; [done|]); (split; [done|]);
    by exists net, iface.
Qed.

(** ** Consecutive allocation *)

Lemma next_free_block (nems : gmap Z iface_ref) (start k : Z) :
  0 <= k ->
  (forall j, is_Some (nems !! j) <-> start <= j < start + k) ->
  next_free (size nems) nems start = start + k.
Proof.
  intros Hk Hblock.
  pose proof (next_free_spec nems start) as Hfree.
  pose proof (next_free_ge (size nems) nems start) as Hge.
  set (r := next_free (size nems) nems start) in *.
  destruct (decide (r < start + k)) as [Hlt|Hnlt].
  { assert (is_Some (nems !! r)) as [i Hi] by (apply Hblock; lia). congruence. }
  destruct (decide (start + k < r)) as [Hgt|]; [|lia].
  assert (is_Some (nems !! (start + k))) as Hs.
  { apply (next_free_least (size nems) nems start). fold r. lia. }
  apply Hblock in Hs. lia.
Qed.

Lemma next_nem_id_consecutive_from (l : list iface_ref) :
  forall (k : Z) (w : World),
  0 <= k ->
  (forall j, is_Some (nems_to_ifaces (manager w) !! j)
             <-> nem_id_start (options (session w)) <= j
                 < nem_id_start (options (session w)) + k) ->
  Forall (fun i => is_Some (iface_node (ifaces w i))) l ->
  eval (mapM next_nem_id l) w
  = Ok (map (fun m => nem_id_start (options (session w)) + k + Z.of_nat m)
            (seq 0 (length l))).
Proof.
  induction l as [|iface l IH]; intros k w Hk Hblock Hnodes; [done|].
  apply Forall_cons in Hnodes as [[node Hnode] Hnodes].
  pose proof (next_free_block _ _ k Hk Hblock) as Hid.
  destruct (next_nem_id_cases w iface) as (Herr & Hok & _).
  simpl in Herr, Hok. rewrite Hid in Herr, Hok.
  set (start := nem_id_start (options (session w))) in *.
  assert (exists w1,
            next_nem_id iface w = (Ok (start + k), w1)
            /\ nems_to_ifaces (manager w1)
               = <[start + k := iface]> (nems_to_ifaces (manager w))
            /\ options (session w1) = options (session w)
            /\ ifaces w1 = ifaces w) as (w1 & Hrun & Hn & Ho & Hi).
  { destruct (emane_nems_oserror (session w)) eqn:Hos.
    - eexists. split; [by apply Herr|done].
    - eexists. split; [by apply (Hok node)|done]. }
  unfold eval. cbn [mapM]. erewrite bind_ok; [|exact Hrun].
  specialize (IH (k + 1) w1). unfold eval in IH. rewrite Ho, Hi in IH.
  fold start in IH.
  destruct (mapM next_nem_id l w1) as [[ids|e] w2] eqn:Hrest; simpl in IH.
  - erewrite bind_ok; [|exact Hrest]. simpl.
    rewrite Z.add_0_r. f_equal. f_equal.
    assert (Ok (A := list Z) ids
            = Ok (map (fun m => start + (k + 1) + Z.of_nat m) (seq 0 (length l))))
      as Hids.
    { apply IH; [lia| |done]. intros j. rewrite Hn.
      destruct (decide (j = start + k)) as [->|Hne].
      - rewrite lookup_insert_eq. split; [lia|by eexists].
      - rewrite lookup_insert_ne by done. rewrite Hblock. lia. }
    injection Hids as ->. rewrite <- seq_shift, map_map.
    apply map_ext. intros m. lia.
  - exfalso.
    assert (Raise (A := list Z) e
            = Ok (map (fun m => start + (k + 1) + Z.of_nat m) (seq 0 (length l))))
      as Hbad; [|done].
    apply IH; [lia| |done]. intros j. rewrite Hn.
    destruct (decide (j = start + k)) as [->|Hne].
    + rewrite lookup_insert_eq. split; [lia|by eexists].
    + rewrite lookup_insert_ne by done. rewrite Hblock. lia.
Qed.

(** X24: from a manager without NEM ids, as [reset] leaves it, allocating
    for a list of interfaces (that have a node) one after the other returns
    [nem_id_start], [nem_id_start + 1], and so on, in the order of the
    list. *)
Theorem next_nem_id_consecutive (w : World) (l : list iface_ref) :
  nems_to_ifaces (manager w) = ∅ ->
  Forall (fun i => is_Some (iface_node (ifaces w i))) l ->
  eval (mapM next_nem_id l) w
  = Ok (map (fun m => nem_id_start (options (session w)) + Z.of_nat m)
            (seq 0 (length l))).
Proof.
  intros Hempty Hnodes.
  rewrite (next_nem_id_consecutive_from l 0 w); [|lia| |done].
  - f_equal. apply map_ext. intros m. lia.
  - intros j. rewrite Hempty, lookup_empty. split; [by intros [? ?]|lia].
Qed.

(** ** Symmetry of links *)

(** X25: [get_nem_link] is symmetric: with the two NEM ids exchanged it
    returns [None] in the same cases, raises in the same cases, and
    otherwise the same link with its two ends exchanged. *)
Theorem get_nem_link_symmetric (get_link_color : Z -> string) (w : World)
    (nem1 nem2 : Z) (flags : MessageFlags) :
  get_nem_link get_link_color nem2 nem1 flags w
  = (match eval (get_nem_link get_link_color nem1 nem2 flags) w with
     | Ok (Some link) => Ok (Some (LinkData_swap link))
     | other => other
     end, w).
Proof.
  unfold eval, get_nem_link, get_iface, bind, get_world, attr_of, ret, raise.
  simpl.
  destruct (nems_to_ifaces (manager w) !! nem1) as [iface1|] eqn:H1,
           (nems_to_ifaces (manager w) !! nem2) as [iface2|] eqn:H2;
    simpl; rewrite ?H1, ?H2; simpl; try done.
  destruct (decide (iface_net (ifaces w iface1) = iface_net (ifaces w iface2)))
    as [Heq|Hne].
  - rewrite !bool_decide_eq_false_2 by (intros Hx; apply Hx; congruence).
    rewrite <- Heq.
    destruct (iface_net (ifaces w iface1)) as [net|]; simpl; [|done].
    by destruct (iface_node (ifaces w iface1)), (iface_node (ifaces w iface2)).
  - by rewrite !bool_decide_eq_true_2 by congruence.
Qed.

(** ** Reset followed by setup *)

Lemma forM_add_node_fresh (l : list net_ref) :
  forall w,
  NoDup (map (fun r => net_id (nets w r)) l) ->
  (forall r, r ∈ l ->
     dict_contains (net_id (nets w r)) (_emane_nets (manager w)) = false) ->
  forM_ add_node l w
  = (Ok tt,
     with_manager w
       (set_emane_nets (manager w)
          (_emane_nets (manager w) ++ map (fun r => (net_id (nets w r), r)) l))).
Proof.
  induction l as [|r l IH]; intros w Hnodup Hfresh.
  - simpl. rewrite app_nil_r. by destruct w as [[]].
  - cbn [forM_]. simpl in Hnodup. apply NoDup_cons in Hnodup as [Hr Hnodup].
    erewrite bind_ok;
      [|rewrite add_node_run, (Hfresh r (list_elem_of_here _ _)); reflexivity].
    rewrite IH; simpl.
    + unfold with_manager, set_emane_nets. simpl. by rewrite <- app_assoc.
    + done.
    + intros r' Hin. unfold dict_contains. apply bool_decide_eq_false_2.
      rewrite fmap_app, elem_of_app. simpl. intros [Hold|Hnew].
      * specialize (Hfresh r' (list_elem_of_further _ _ _ Hin)).
        unfold dict_contains in Hfresh.
        by apply bool_decide_eq_false_1 in Hfresh.
      * apply list_elem_of_singleton in Hnew. apply Hr. rewrite <- Hnew.
        apply list_elem_of_In, in_map_iff. exists r'.
        by rewrite <- list_elem_of_In.
Qed.

(** X26: [reset] followed by [setup], the first steps of [startup].  When
    the session's EMANE networks have pairwise distinct ids, the bindings
    are present, and every network without a model has a registered model
    name under its id in [node_models], then [setup] after [reset] returns
    [SUCCESS] if the session has such a network and [NOT_NEEDED] if it has
    none, and exactly the session's networks are registered, in session
    order. *)
Theorem reset_setup (session_emane_nets : list net_ref) (w : World) :
  NoDup (map (fun r => net_id (nets w r)) session_emane_nets) ->
  (forall r, r ∈ session_emane_nets ->
     wireless_model (nets w r) = None ->
     exists name cls,
       node_models (manager w) !! net_id (nets w r) = Some name /\ name <> ""
       /\ model_registry w !! name = Some cls) ->
  let w' := exec (setup session_emane_nets true) (exec reset w) in
  eval (setup session_emane_nets true) (exec reset w)
  = Ok (match session_emane_nets with [] => NOT_NEEDED | _ => SUCCESS end)
  /\ _emane_nets (manager w')
     = map (fun r => (net_id (nets w r), r)) session_emane_nets.
Proof.
  intros Hnodup Hcfg w'. unfold w'. clear w'.
  unfold eval, exec. rewrite reset_spec. cbn [snd].
  set (w0 := emit _ _).
  destruct session_emane_nets as [|r rest] eqn:Hs; [done|].
  set (l := r :: rest) in *.
  assert (forM_ add_node l w0
          = (Ok tt, with_manager w0
                      (set_emane_nets (manager w0)
                         (map (fun r => (net_id (nets w r), r)) l))))
    as Hadd.
  { rewrite forM_add_node_fresh; [done|done|]. intros r' _.
    unfold dict_contains. apply bool_decide_eq_false_2. simpl.
    apply not_elem_of_nil. }
  set (w1 := with_manager w0 _) in Hadd.
  assert (_emane_nets (manager w1)
          = map (fun r => (net_id (nets w r), r)) l) as Hd
    by reflexivity.
  destruct (check_node_models_loop (_emane_nets (manager w1)) [] w1 w1
              (models_added_refl [] w1))
    as (w2 & Hloop & (Hm & _) & _).
  { intros k r' Hin Hwm. rewrite Hd in Hin.
    apply list_elem_of_In, in_map_iff in Hin as (r'' & [= <- <-] & Hin).
    exact (Hcfg r'' (proj2 (list_elem_of_In _ _) Hin) Hwm). }
  rewrite <- check_node_models_unfold in Hloop.
  assert (setup l true w0 = (Ok SUCCESS, w2)) as Hrun.
  { unfold setup. erewrite bind_ok; [|exact Hadd].
    erewrite bind_ok; [|reflexivity]. rewrite Hd. unfold l at 1. simpl.
    by erewrite bind_ok; [|exact Hloop]. }
  rewrite Hrun. split; [reflexivity|].
  cbn [snd]. rewrite Hm. exact Hd.
Qed.

End MoreProperties.

(** * The further properties at concrete sessions *)

Lemma get_config_result_witness :
  model_registry planted_world !! "rfpipe" = Some rfpipe
  /\ get_config (demo_config_id 2 0) "rfpipe" false planted_world
     = (Ok (Some (<["external" := "1"]> (default_values rfpipe))), planted_world)
  /\ get_config 3 "rfpipe" true planted_world
     = (Ok (Some (default_values rfpipe)), planted_world).
Proof.
  split; [reflexivity|].
  rewrite (get_config_result planted_world (demo_config_id 2 0) "rfpipe" rfpipe
             false eq_refl).
  rewrite (get_config_result planted_world 3 "rfpipe" rfpipe true eq_refl).
  split; vm_compute; reflexivity.
Defined.

Lemma unknown_model_raises_witness :
  model_registry (demo_world 1) !! "ieee80211abg" = None
  /\ exists msg,
       get_config 1 "ieee80211abg" true (demo_world 1)
       = (Raise (CoreError msg), demo_world 1).
Proof.
  split; [reflexivity|].
  destruct (unknown_model_raises (demo_world 1) 1 "ieee80211abg" true None
              eq_refl) as (msg & Hget & _).
  by exists msg.
Defined.

Lemma set_config_get_config_witness :
  model_registry (demo_world 1) !! "rfpipe" = Some rfpipe
  /\ exists after,
       get_config 2 "rfpipe" false
         (exec (set_config 2 "rfpipe" (Some {[ "external" := "1" ]})) (demo_world 1))
       = (Ok (Some after),
          exec (set_config 2 "rfpipe" (Some {[ "external" := "1" ]})) (demo_world 1))
       /\ after !! "external" = Some "1"
       /\ after !! "otamanagerdevice" = Some "ctrl0net".
Proof.
  split; [reflexivity|].
  destruct (set_config_get_config (demo_world 1) 2 "rfpipe"
              (Some {[ "external" := "1" ]}) rfpipe eq_refl)
    as (_ & after & Hget & Hnew & Hold).
  exists after. split; [exact Hget|]. split.
  - apply Hnew. reflexivity.
  - rewrite Hold; reflexivity.
Defined.

Lemma set_config_frame_witness :
  (demo_config_id 2 0, "rfpipe") <> (2, "rfpipe")
  /\ stored_lookup
       (manager (exec (set_config 2 "rfpipe" (Some {[ "external" := "2" ]}))
                   planted_world))
       (demo_config_id 2 0) "rfpipe"
     = stored_lookup (manager planted_world) (demo_config_id 2 0) "rfpipe".
Proof.
  assert ((demo_config_id 2 0, "rfpipe") <> (2, "rfpipe")) as Hne
    by (intros [=]).
  split; [exact Hne|].
  exact (proj1 (set_config_frame planted_world 2 (demo_config_id 2 0)
                  "rfpipe" "rfpipe" (Some {[ "external" := "2" ]}) Hne)).
Defined.

Lemma config_reset_all_witness :
  model_registry planted_world !! "rfpipe" = Some rfpipe
  /\ get_config (demo_config_id 2 0) "rfpipe" false
       (exec (config_reset None) planted_world)
     = (Ok None, exec (config_reset None) planted_world).
Proof.
  split; [reflexivity|].
  exact (proj1 (proj2 (config_reset_all planted_world (demo_config_id 2 0)
                         "rfpipe" rfpipe eq_refl))).
Defined.

Lemma next_nem_id_increasing_witness :
  eval (next_nem_id 1%positive) (demo_world 1) = Ok 1
  /\ eval (next_nem_id 2%positive) (exec (next_nem_id 1%positive) (demo_world 1))
     = Ok 2
  /\ 1 < 2.
Proof.
  split; [reflexivity|]. split; [reflexivity|].
  exact (next_nem_id_increasing (demo_world 1) 1%positive 2%positive 1 2
           eq_refl eq_refl).
Defined.

Lemma get_nem_port_injective_witness :
  ifaces_to_nems (manager used_world) !! 1%positive = Some 1
  /\ 0 <= 1 <= 999
  /\ eval (get_nem_port 1%positive) used_world
     = eval (get_nem_port 1%positive) used_world
  /\ 1 = 1.
Proof.
  split; [reflexivity|]. split; [lia|]. split; [reflexivity|].
  apply (get_nem_port_injective used_world 1%positive 1%positive 1 1);
    [reflexivity|reflexivity|lia|lia|reflexivity].
Defined.

Lemma check_node_models_success_witness :
  exists w',
    check_node_models selected_world = (Ok tt, w')
    /\ wireless_model (nets w' 2%positive) = Some rfpipe.
Proof.
  destruct (check_node_models_success selected_world) as (w' & Hrun & _).
  - intros k r Hin _. apply list_elem_of_singleton in Hin. injection Hin as -> ->.
    exists "rfpipe", rfpipe. by repeat split.
  - exists w'. split; [exact Hrun|].
    assert (check_node_models selected_world
            = (Ok tt, with_nets selected_world
                        (<[2%positive := EmaneNet_setmodel (nets selected_world 2%positive) rfpipe]>
                           (nets selected_world)))) as Hrun'
      by reflexivity.
    rewrite Hrun in Hrun'. injection Hrun' as ->. reflexivity.
Defined.

Lemma check_node_models_missing_model_witness :
  let w := exec (add_node 2%positive) (demo_world 1) in
  _emane_nets (manager w) = [] ++ (5, 2%positive) :: []
  /\ wireless_model (nets w 2%positive) = None
  /\ node_models (manager w) !! 5 = None
  /\ exists e, eval check_node_models w = Raise e.
Proof.
  intros w. split; [reflexivity|]. split; [reflexivity|]. split; [reflexivity|].
  apply (check_node_models_missing_model w 5 2%positive [] []);
    [reflexivity|apply not_elem_of_nil|reflexivity|by left].
Defined.

Lemma setup_result_witness :
  eval (setup [1%positive] true) (demo_world 1) = Ok SUCCESS
  /\ _emane_nets (manager (exec (setup [1%positive] true) (demo_world 1)))
     = [(1, 1%positive)].
Proof.
  split; [reflexivity|].
  exact (proj1 (setup_result [1%positive] true (demo_world 1) SUCCESS eq_refl)).
Defined.

Lemma setup_twice_raises_witness :
  [1%positive] <> []
  /\ eval (setup [1%positive] true) (demo_world 1) = Ok SUCCESS
  /\ exists msg,
       setup [1%positive] true (exec (setup [1%positive] true) (demo_world 1))
       = (Raise (CoreError msg), exec (setup [1%positive] true) (demo_world 1)).
Proof.
  split; [done|]. split; [reflexivity|].
  apply (setup_twice_raises [1%positive] true (demo_world 1) SUCCESS);
    [done|reflexivity].
Defined.

Lemma get_nem_position_entry_witness :
  ifaces_to_nems (manager used_world) !! 1%positive = Some 1
  /\ iface_node (ifaces used_world 1%positive) = Some 1%positive
  /\ eval (get_nem_position demo_getgeo 1%positive) used_world
     = Ok (Some (1, 100%Q, 50%Q, 0)).
Proof.
  split; [reflexivity|]. split; [reflexivity|].
  exact (proj1 (get_nem_position_entry demo_getgeo used_world 1%positive 1
                  1%positive 50%Q 100%Q 0%Q eq_refl eq_refl eq_refl)).
Defined.

Lemma handlelocationevent_drops_witness :
  handlelocationevent demo_getxyz
    [ (7, <["latitude" := 10%Q]> (<["longitude" := 20%Q]> {["altitude" := 5%Q]}));
      (1, {["latitude" := 10%Q]}) ]
    (demo_world 1)
  = (Ok tt, demo_world 1).
Proof.
  apply handlelocationevent_drops.
  apply Forall_cons. split; [right; right; right; reflexivity|].
  apply Forall_cons. split; [right; left; reflexivity|].
  apply Forall_nil_2.
Defined.

Lemma shutdown_clears_hooks_witness :
  let w := exec (add_node 1%positive) (demo_world 1) in
  eval get_ifaces w = Ok [(1, 1); (1, 2)]%positive
  /\ manager (exec shutdown w) = manager w.
Proof.
  intros w.
  assert (eval get_ifaces w = Ok [(1, 1); (1, 2)]%positive) as Hpairs
    by (vm_compute; reflexivity).
  split; [exact Hpairs|].
  exact (proj1 (proj2 (shutdown_clears_hooks w _ Hpairs))).
Defined.

Lemma next_nem_id_consecutive_witness :
  nems_to_ifaces (manager (demo_world 1)) = ∅
  /\ eval (mapM next_nem_id [1; 2]%positive) (demo_world 1) = Ok [1; 2].
Proof.
  split; [reflexivity|].
  apply (next_nem_id_consecutive (demo_world 1) [1; 2]%positive);
    [reflexivity|].
  repeat constructor; by eexists.
Defined.

Lemma reset_setup_witness :
  eval (setup [1%positive] true) (exec reset used_world) = Ok SUCCESS
  /\ _emane_nets (manager (exec (setup [1%positive] true) (exec reset used_world)))
     = [(1, 1%positive)].
Proof.
  apply (reset_setup [1%positive] used_world).
  - repeat constructor. apply not_elem_of_nil.
  - intros r Hin Hwm. apply list_elem_of_singleton in Hin. subst r.
    discriminate Hwm.
Defined.
